(** * Cartographer: sensor fans and the odometry state tracker

    A shallow embedding of
    - [cartographer/sensor/laser.cc] (fan construction from a raw scan,
      max-range filtering, compression and decompression of 3D fans), and
    - [cartographer/kalman_filter/odometry_state_tracker.h] (the sliding
      window of odometry states),
    together with the properties the specification states about them.

    C++ [float] is IEEE-754 binary32.  It is modelled by the Standard
    Library's [spec_float] with a 24 bit mantissa, so comparisons with NaN and
    the rounding of every addition are those of the machine. *)

From Stdlib Require Import ZArith Lia Sorted Floats.SpecFloat.
From stdpp Require Import base option list.

#[local] Open Scope Z_scope.

(** * Part I: the model *)

(** ** Single precision floating point *)

Module Float32.

Definition float : Type := spec_float.

Definition prec : Z := 24.
Definition emax : Z := 128.

(** [0.f] *)
Definition zero : float := S754_zero false.

(** [std::numeric_limits<float>::quiet_NaN()] *)
Definition nan : float := S754_nan.

(** [std::isnan] *)
Definition isnan (f : float) : bool :=
  match f with
  | S754_nan => true
  | _ => false
  end.

Definition add : float -> float -> float := SFadd prec emax.
Definition sub : float -> float -> float := SFsub prec emax.
Definition mul : float -> float -> float := SFmul prec emax.

(** The ordered comparisons [<=], [<], [>=], [>]; each is false as soon as
    an operand is NaN. *)
Definition le (a b : float) : bool := SFleb a b.
Definition lt (a b : float) : bool := SFltb a b.
Definition ge (a b : float) : bool := SFleb b a.
Definition gt (a b : float) : bool := SFltb b a.
Definition eqb (a b : float) : bool := SFeqb a b.

(** Conversion of an integer, rounding to nearest even. *)
Definition of_Z (n : Z) : float := binary_normalize prec emax n 0 false.

(** The values of [spec_float] that are single precision numbers: a finite
    one has its mantissa normalized and its exponent in range. *)
Definition valid (f : float) : bool := valid_binary prec emax f.

End Float32.

(** The order of the numbers among the floats, for the proofs about
    comparisons: every float but NaN has a rank, a triple of integers, and
    the floats compare as their ranks do, lexicographically. *)
Module Float32_order.

Import Float32.

Definition rank (f : float) : option (Z * Z * Z) :=
  match f with
  | S754_nan => None
  | S754_infinity s => Some (if s then (-2, 0, 0) else (2, 0, 0))
  | S754_zero _ => Some (0, 0, 0)
  | S754_finite s m e =>
      Some (if s then (-1, - e, - Z.pos m) else (1, e, Z.pos m))
  end.

Definition rank_le (a b : Z * Z * Z) : Prop :=
  let '(a1, a2, a3) := a in
  let '(b1, b2, b3) := b in
  a1 < b1 \/ (a1 = b1 /\ (a2 < b2 \/ (a2 = b2 /\ a3 <= b3))).

End Float32_order.

(** ** Eigen vectors *)

Module Vector2f.

Record t : Type := Build { x : Float32.float; y : Float32.float }.

(** [Eigen::Vector2f::Zero()] *)
Definition Zero : t := Build Float32.zero Float32.zero.

End Vector2f.

Module Vector3f.

Record t : Type :=
  Build { x : Float32.float; y : Float32.float; z : Float32.float }.

(** Coefficient-wise [operator-]. *)
Definition minus (a b : t) : t :=
  Build (Float32.sub (x a) (x b)) (Float32.sub (y a) (y b))
        (Float32.sub (z a) (z b)).

(** All three coefficients are single precision numbers. *)
Definition valid (a : t) : Prop :=
  Float32.valid (x a) = true /\ Float32.valid (y a) = true
  /\ Float32.valid (z a) = true.

End Vector3f.

(** [uint8], as an integer in [0, 256). *)
Definition uint8 : Type := Z.

(** [std::vector<T>::operator[]] with an [int] or [size_t] index.  Reading
    outside the vector is undefined behaviour; the model returns [None]
    there, and a negative [int] (a huge [size_t]) is outside. *)
Definition vector_at {A : Type} (v : list A) (i : Z) : option A :=
  if i <? 0 then None else v !! Z.to_nat i.

(** ** [cartographer/sensor/laser.cc] *)

Module sensor.

Import Float32.

(** [proto::LaserScan]: [range] holds, for every beam, its echoes
    ([repeated float value]). *)
Record LaserScan : Type := {
  angle_min : float;
  angle_max : float;
  angle_increment : float;
  range : list (list float)
}.

Module LaserFan.

Record t : Type := Build {
  origin : Vector2f.t;
  point_cloud : list Vector2f.t;
  missing_echo_point_cloud : list Vector2f.t
}.

End LaserFan.

(** [sensor::PointCloud], a [std::vector<Eigen::Vector3f>]. *)
Abbreviation PointCloud := (list Vector3f.t).

Module LaserFan3D.

Record t : Type := Build {
  origin : Vector3f.t;
  returns : PointCloud;
  misses : PointCloud;
  reflectivities : list uint8
}.

End LaserFan3D.

(** *** [ReorderReflectivities] *)

(** The vector reads the loop performs, in program order. *)
Inductive access : Type :=
| read_new_to_old (i : nat)
| read_reflectivities (j : Z).

(** The [for] loop [for (i = 0; i < reordered.size(); ++i)], with
    [remaining = reordered.size() - i].  It returns the reads it made and
    [None] as soon as one of them is out of bounds. *)
Fixpoint ReorderReflectivities_loop
    (reflectivities : list uint8) (new_to_old : list Z)
    (remaining i : nat) (reordered : list uint8)
    : list access * option (list uint8) :=
  match remaining with
  | O => ([], Some reordered)
  | S remaining =>
      match new_to_old !! i with
      | None => ([read_new_to_old i], None)
      | Some j =>
          match vector_at reflectivities j with
          | None => ([read_new_to_old i; read_reflectivities j], None)
          | Some r =>
              let '(trace, result) :=
                ReorderReflectivities_loop reflectivities new_to_old
                  remaining (S i) (<[i := r]> reordered) in
              (read_new_to_old i :: read_reflectivities j :: trace, result)
          end
      end
  end.

Definition ReorderReflectivities_run
    (reflectivities : list uint8) (new_to_old : list Z)
    : list access * option (list uint8) :=
  ReorderReflectivities_loop reflectivities new_to_old
    (length reflectivities) 0%nat (replicate (length reflectivities) 0).

Definition ReorderReflectivities
    (reflectivities : list uint8) (new_to_old : list Z)
    : option (list uint8) :=
  snd (ReorderReflectivities_run reflectivities new_to_old).

Definition ReorderReflectivities_accesses
    (reflectivities : list uint8) (new_to_old : list Z) : list access :=
  fst (ReorderReflectivities_run reflectivities new_to_old).

(** *** [ToLaserFan] *)

Section ToLaserFan.

(** [Eigen::Rotation2Df(angle) * v], a function of the Eigen library. *)
Variable Rotation2Df : float -> Vector2f.t -> Vector2f.t.

Variables min_range max_range missing_echo_ray_length : float.

(** The body of the [for] loop over [proto.range()], on the loop state
    [(angle, laser_fan)]; [increment] is [proto.angle_increment()]. *)
Definition ToLaserFan_body (increment : float)
    (state : float * LaserFan.t) (echoes : list float)
    : float * LaserFan.t :=
  let '(angle, laser_fan) := state in
  let laser_fan :=
    match echoes with
    | first_echo :: _ =>
        if negb (isnan first_echo) && ge first_echo min_range then
          if le first_echo max_range then
            LaserFan.Build
              (LaserFan.origin laser_fan)
              (LaserFan.point_cloud laser_fan
                 ++ [Rotation2Df angle (Vector2f.Build first_echo zero)])
              (LaserFan.missing_echo_point_cloud laser_fan)
          else
            LaserFan.Build
              (LaserFan.origin laser_fan)
              (LaserFan.point_cloud laser_fan)
              (LaserFan.missing_echo_point_cloud laser_fan
                 ++ [Rotation2Df angle
                       (Vector2f.Build missing_echo_ray_length zero)])
        else laser_fan
    | [] => laser_fan
    end in
  (add angle increment, laser_fan).

(** The loop state once the beams [beams] have been processed, starting from
    [angle = proto.angle_min()] and the empty fan. *)
Definition ToLaserFan_loop (proto : LaserScan) (beams : list (list float))
    : float * LaserFan.t :=
  fold_left (ToLaserFan_body (angle_increment proto)) beams
    (angle_min proto, LaserFan.Build Vector2f.Zero [] []).

(** [None] is the abort of a failed [CHECK_GE] or [CHECK_GT]. *)
Definition ToLaserFan (proto : LaserScan) : option LaserFan.t :=
  if negb (ge min_range zero) then None
  else if negb (gt (angle_increment proto) zero) then None
  else if negb (gt (angle_max proto) (angle_min proto)) then None
  else Some (snd (ToLaserFan_loop proto (range proto))).

End ToLaserFan.

(** *** Compression of 3D fans *)

(** [CompressedPointCloud] (compressed_point_cloud.h) is used by [Compress]
    and [Decompress] but is not part of these sources; the operations of it
    that laser.cc calls are the fields of an interface. *)
Class CompressedPointCloudOps : Type := {
  CompressedPointCloud : Type;
  (** [CompressedPointCloud::CompressAndReturnOrder(point_cloud, &new_to_old)]:
      the encoding together with the value left in [new_to_old]. *)
  CompressAndReturnOrder : PointCloud -> CompressedPointCloud * list Z;
  (** The constructor [CompressedPointCloud(point_cloud)]. *)
  CompressedPointCloud_of : PointCloud -> CompressedPointCloud;
  (** [CompressedPointCloud::Decompress()]. *)
  CompressedPointCloud_Decompress : CompressedPointCloud -> PointCloud
}.

Module CompressedLaserFan3D.

Record t `{CompressedPointCloudOps} : Type := Build {
  origin : Vector3f.t;
  returns : CompressedPointCloud;
  misses : CompressedPointCloud;
  reflectivities : list uint8
}.

End CompressedLaserFan3D.

Section Compression.

Context `{CompressedPointCloudOps}.

Definition Decompress (compressed_laser_fan : CompressedLaserFan3D.t)
    : LaserFan3D.t :=
  LaserFan3D.Build
    (CompressedLaserFan3D.origin compressed_laser_fan)
    (CompressedPointCloud_Decompress
       (CompressedLaserFan3D.returns compressed_laser_fan))
    (CompressedPointCloud_Decompress
       (CompressedLaserFan3D.misses compressed_laser_fan))
    (CompressedLaserFan3D.reflectivities compressed_laser_fan).

(** [None] when [ReorderReflectivities] reads out of bounds. *)
Definition Compress (laser_fan : LaserFan3D.t)
    : option CompressedLaserFan3D.t :=
  let '(compressed_returns, new_to_old) :=
    CompressAndReturnOrder (LaserFan3D.returns laser_fan) in
  reordered ←
    ReorderReflectivities (LaserFan3D.reflectivities laser_fan) new_to_old;
  Some (CompressedLaserFan3D.Build _
          (LaserFan3D.origin laser_fan)
          compressed_returns
          (CompressedPointCloud_of (LaserFan3D.misses laser_fan))
          reordered).

(** What the specification says of the encoding of a point cloud: it
    reorders the points, [new_to_old] being a permutation of their indices,
    and it is lossy within a tolerance, decoded point [i] being near the
    point [new_to_old[i]] that it encodes.  What near means is left to the
    encoding. *)
Definition reorders_within_tolerance
    (near : Vector3f.t -> Vector3f.t -> Prop) (points : PointCloud) : Prop :=
  let '(compressed, new_to_old) := CompressAndReturnOrder points in
  new_to_old ≡ₚ seqZ 0 (Z.of_nat (length points))
  /\ Forall2
       (fun q j => exists p : Vector3f.t,
                     vector_at points j = Some p /\ near p q)
       (CompressedPointCloud_Decompress compressed) new_to_old.

End Compression.

(** *** [FilterLaserFanByMaxRange] *)

Section FilterLaserFanByMaxRange.

(** [Eigen::Vector3f::norm()], a function of the Eigen library. *)
Variable norm : Vector3f.t -> float.

Definition FilterLaserFanByMaxRange
    (laser_fan : LaserFan3D.t) (max_range : float) : LaserFan3D.t :=
  fold_left
    (fun result return_ =>
       if le (norm (Vector3f.minus return_ (LaserFan3D.origin laser_fan)))
             max_range
       then
         LaserFan3D.Build
           (LaserFan3D.origin result)
           (LaserFan3D.returns result ++ [return_])
           (LaserFan3D.misses result)
           (LaserFan3D.reflectivities result)
       else result)
    (LaserFan3D.returns laser_fan)
    (LaserFan3D.Build (LaserFan3D.origin laser_fan) [] [] []).

(** A point is within [max_range] of the origin of the fan when the test of
    the loop holds of it: the distance, as computed, is at most [max_range]. *)
Definition within (laser_fan : LaserFan3D.t) (max_range : float)
    (p : Vector3f.t) : Prop :=
  le (norm (Vector3f.minus p (LaserFan3D.origin laser_fan))) max_range = true.

#[export] Instance within_dec (laser_fan : LaserFan3D.t) (max_range : float)
    (p : Vector3f.t) : Decision (within laser_fan max_range p) :=
  bool_eq_dec _ _.

End FilterLaserFanByMaxRange.

(** *** The beams of a scan, as the specification describes them *)

(** The angle of beam [i] when [angle_increment] has been added [i] times to
    [angle_min], each sum rounded to single precision. *)
Fixpoint beam_angle (proto : LaserScan) (i : nat) : float :=
  match i with
  | O => angle_min proto
  | S i => add (beam_angle proto i) (angle_increment proto)
  end.

(** [angleMin + i * angleIncrement], in single precision. *)
Definition nominal_beam_angle (proto : LaserScan) (i : nat) : float :=
  add (angle_min proto) (mul (of_Z (Z.of_nat i)) (angle_increment proto)).

Inductive beam_class : Type := no_point | valid_return | missing_echo.

(** A first echo that is NaN or strictly below [min_range] gives no point;
    otherwise one that is at most [max_range] gives a return, and any other
    a missing echo. *)
Definition classify_first_echo (min_range max_range first_echo : float)
    : beam_class :=
  if isnan first_echo || lt first_echo min_range then no_point
  else if le first_echo max_range then valid_return
  else missing_echo.

(** The same, with the test worded [first_echo > max_range]: a first echo
    that exceeds [max_range] gives a missing echo, any other a return. *)
Definition classify_first_echo_exceeds (min_range max_range first_echo : float)
    : beam_class :=
  if isnan first_echo || lt first_echo min_range then no_point
  else if gt first_echo max_range then missing_echo
  else valid_return.

Section Beams.

Variable Rotation2Df : float -> Vector2f.t -> Vector2f.t.
Variables min_range max_range missing_echo_ray_length : float.

(** The points beam [i] with echoes [echoes] adds to the returns. *)
Definition beam_returns (proto : LaserScan) (i : nat) (echoes : list float)
    : list Vector2f.t :=
  match echoes with
  | first_echo :: _ =>
      match classify_first_echo min_range max_range first_echo with
      | valid_return =>
          [Rotation2Df (beam_angle proto i) (Vector2f.Build first_echo zero)]
      | _ => []
      end
  | [] => []
  end.

(** The points beam [i] with echoes [echoes] adds to the misses. *)
Definition beam_misses (proto : LaserScan) (i : nat) (echoes : list float)
    : list Vector2f.t :=
  match echoes with
  | first_echo :: _ =>
      match classify_first_echo min_range max_range first_echo with
      | missing_echo =>
          [Rotation2Df (beam_angle proto i)
             (Vector2f.Build missing_echo_ray_length zero)]
      | _ => []
      end
  | [] => []
  end.

End Beams.

(** [Eigen::Rotation2Df(0.f) * v]: the rotation matrix of the angle 0 is the
    identity (cos 0 = 1 and sin 0 = 0, exactly).  The closed examples below
    only rotate by that angle. *)
Definition Rotation2Df_zero (angle : float) (v : Vector2f.t) : Vector2f.t := v.

(** *** [ToLaserFan3D] and [ProjectCroppedLaserFan] *)

Section Projection.

(** [ToPointCloud], [Crop] and [ProjectToPointCloud2D] (sensor/point_cloud.h)
    are called by laser.cc but are not part of these sources. *)
Variable ToPointCloud : list Vector2f.t -> PointCloud.
Variable Crop : PointCloud -> Vector3f.t -> Vector3f.t -> PointCloud.
Variable ProjectToPointCloud2D : PointCloud -> list Vector2f.t.

(** The aggregate names three members; the fourth, [reflectivities], is
    value-initialized, so it is empty.  The literal [0.] is converted to
    [0.f]. *)
Definition ToLaserFan3D (laser_fan : LaserFan.t) : LaserFan3D.t :=
  LaserFan3D.Build
    (Vector3f.Build (Vector2f.x (LaserFan.origin laser_fan))
                    (Vector2f.y (LaserFan.origin laser_fan))
                    zero)
    (ToPointCloud (LaserFan.point_cloud laser_fan))
    (ToPointCloud (LaserFan.missing_echo_point_cloud laser_fan))
    [].

(** [origin.head<2>()] is the vector of the first two coefficients. *)
Definition ProjectCroppedLaserFan (laser_fan : LaserFan3D.t)
    (min max : Vector3f.t) : LaserFan.t :=
  LaserFan.Build
    (Vector2f.Build (Vector3f.x (LaserFan3D.origin laser_fan))
                    (Vector3f.y (LaserFan3D.origin laser_fan)))
    (ProjectToPointCloud2D (Crop (LaserFan3D.returns laser_fan) min max))
    (ProjectToPointCloud2D (Crop (LaserFan3D.misses laser_fan) min max)).

End Projection.

(** *** [ToProto] and [FromProto] *)

(** The conversion of a [uint8] to the element type of a repeated integer
    field of a protocol buffer, which is wider: the value is kept. *)
Definition int_of_uint8 (r : uint8) : Z := r.

(** The conversion of such an element to [uint8]: the value modulo 256. *)
Definition uint8_of_int (n : Z) : uint8 := n mod 256.

Module LaserFan3D_proto.

(** [proto::LaserFan3D] (sensor.pb.h is generated and not part of these
    sources): the messages of the origin and of the point clouds are
    parameters, [reflectivity] is a repeated integer field. *)
Record t (Vector3f_proto PointCloud_proto : Type) : Type := Build {
  origin : Vector3f_proto;
  point_cloud : PointCloud_proto;
  missing_echo_point_cloud : PointCloud_proto;
  reflectivity : list Z
}.

Arguments Build {Vector3f_proto PointCloud_proto}.
Arguments origin {Vector3f_proto PointCloud_proto}.
Arguments point_cloud {Vector3f_proto PointCloud_proto}.
Arguments missing_echo_point_cloud {Vector3f_proto PointCloud_proto}.
Arguments reflectivity {Vector3f_proto PointCloud_proto}.

End LaserFan3D_proto.

Section Proto.

Variables Vector3f_proto PointCloud_proto : Type.

(** [transform::ToProto] and [transform::ToEigen] (transform/transform.h),
    [ToProto] and [ToPointCloud] on point clouds (sensor/point_cloud.h):
    called by laser.cc, not part of these sources. *)
Variable transform_ToProto : Vector3f.t -> Vector3f_proto.
Variable transform_ToEigen : Vector3f_proto -> Vector3f.t.
Variable PointCloud_ToProto : PointCloud -> PointCloud_proto.
Variable PointCloud_FromProto : PointCloud_proto -> PointCloud.

(** [std::copy] appends the reflectivities, each converted, to the empty
    repeated field of the new message. *)
Definition ToProto (laser_fan : LaserFan3D.t)
    : LaserFan3D_proto.t Vector3f_proto PointCloud_proto :=
  LaserFan3D_proto.Build
    (transform_ToProto (LaserFan3D.origin laser_fan))
    (PointCloud_ToProto (LaserFan3D.returns laser_fan))
    (PointCloud_ToProto (LaserFan3D.misses laser_fan))
    ([] ++ (int_of_uint8 <$> LaserFan3D.reflectivities laser_fan)).

(** The fan is built without reflectivities; [std::copy] then appends those
    of the message, each converted to [uint8]. *)
Definition FromProto
    (proto : LaserFan3D_proto.t Vector3f_proto PointCloud_proto)
    : LaserFan3D.t :=
  let laser_fan_3d :=
    LaserFan3D.Build
      (transform_ToEigen (LaserFan3D_proto.origin proto))
      (PointCloud_FromProto (LaserFan3D_proto.point_cloud proto))
      (PointCloud_FromProto (LaserFan3D_proto.missing_echo_point_cloud proto))
      [] in
  LaserFan3D.Build
    (LaserFan3D.origin laser_fan_3d)
    (LaserFan3D.returns laser_fan_3d)
    (LaserFan3D.misses laser_fan_3d)
    (LaserFan3D.reflectivities laser_fan_3d
       ++ (uint8_of_int <$> LaserFan3D_proto.reflectivity proto)).

End Proto.

(** *** Orders of reflectivities *)

(** The order that reads first [first] and then [second]: entry [i] is
    [first[second[i]]].  An entry of [second] outside [first] gives 0. *)
Definition compose_order (first second : list Z) : list Z :=
  (fun j => default 0 (vector_at first j)) <$> second.

(** The guard of the loop body of [ToLaserFan]: the beam has a first echo,
    which is a number and at least [min_range]. *)
Definition echo_accepted (min_range : float) (echoes : list float) : bool :=
  match echoes with
  | first_echo :: _ => negb (isnan first_echo) && ge first_echo min_range
  | [] => false
  end.

(** A scan continued by more beams. *)
Definition continued (proto : LaserScan) (more : list (list float))
    : LaserScan := {|
  angle_min := angle_min proto;
  angle_max := angle_max proto;
  angle_increment := angle_increment proto;
  range := range proto ++ more
|}.

(** A scan with, for every beam, its first echo alone (if it has one). *)
Definition first_echoes (proto : LaserScan) : LaserScan := {|
  angle_min := angle_min proto;
  angle_max := angle_max proto;
  angle_increment := angle_increment proto;
  range := take 1 <$> range proto
|}.

End sensor.

(** ** A grid encoding of point clouds *)

Module grid.

Import Float32 sensor.

(** Modelled from the spec: [CompressedPointCloud] (compressed_point_cloud.h
    and .cc are not part of these sources).  The specification says of the
    encoding that it quantizes and reorders the points, records the
    permutation [new_to_old], and decodes to the same points up to
    quantization error.  In this model the points are quantized to the cells
    of a grid of spacing 1; a cell is named by its integer coordinates. *)
Definition cell : Type := Z * Z * Z.

(** Modelled from the spec: the quantization of a coordinate, to the nearest
    integer, halves away from zero; 0 for NaN and the infinities. *)
Definition RoundToInt (f : float) : Z :=
  match f with
  | S754_finite s m e =>
      let magnitude :=
        if 0 <=? e then Z.pos m * 2 ^ e
        else (Z.pos m + 2 ^ (- e - 1)) / 2 ^ (- e) in
      if s then - magnitude else magnitude
  | _ => 0
  end.

(** Modelled from the spec: the cell that a point is quantized to. *)
Definition cell_of (p : Vector3f.t) : cell :=
  (RoundToInt (Vector3f.x p), RoundToInt (Vector3f.y p),
   RoundToInt (Vector3f.z p)).

(** Modelled from the spec: the point that a cell is decoded to, the one at
    its integer coordinates. *)
Definition point_of (c : cell) : Vector3f.t :=
  let '(cx, cy, cz) := c in Vector3f.Build (of_Z cx) (of_Z cy) (of_Z cz).

(** Modelled from the spec: the compressed order of the cells, which is the
    lexicographic one. *)
Definition cell_le (a b : cell) : bool :=
  let '(ax, ay, az) := a in
  let '(bx, by_, bz) := b in
  (ax <? bx) || ((ax =? bx) && ((ay <? by_) || ((ay =? by_) && (az <=? bz)))).

(** Insertion of a cell, with the index of its point beside it, before the
    first cell that is not before it. *)
Fixpoint insert_cell (c : cell * Z) (sorted : list (cell * Z))
    : list (cell * Z) :=
  match sorted with
  | [] => [c]
  | d :: sorted' =>
      if cell_le (fst c) (fst d) then c :: sorted
      else d :: insert_cell c sorted'
  end.

(** A stable insertion sort. *)
Definition sort_cells (cells : list (cell * Z)) : list (cell * Z) :=
  foldr insert_cell [] cells.

(** Modelled from the spec: [CompressAndReturnOrder], which quantizes the
    points, reorders their cells into the compressed order and records in
    [new_to_old], for every cell, the index that its point had. *)
Definition compress_and_return_order (points : PointCloud)
    : list cell * list Z :=
  let sorted :=
    sort_cells (imap (fun i p => (cell_of p, Z.of_nat i)) points) in
  (fst <$> sorted, snd <$> sorted).

(** Modelled from the spec: the encoding, as an implementation of the
    interface that laser.cc uses. *)
#[export] Instance codec : CompressedPointCloudOps := {|
  CompressedPointCloud := list cell;
  CompressAndReturnOrder := compress_and_return_order;
  CompressedPointCloud_of := fun points => fst (compress_and_return_order points);
  CompressedPointCloud_Decompress := fmap point_of
|}.

(** Two points agree within the quantization tolerance when they are
    quantized to the same cell. *)
Definition near (p q : Vector3f.t) : Prop := cell_of p = cell_of q.

(** A list of cells, each with an index beside it, is in compressed order
    when every cell is before the next. *)
Definition cell_order (c d : cell * Z) : Prop :=
  cell_le (fst c) (fst d) = true.

(** A point cloud is in compressed order already when its cells are. *)
Definition in_compressed_order (points : PointCloud) : Prop :=
  Sorted cell_order (imap (fun i p => (cell_of p, Z.of_nat i)) points).

End grid.

(** ** [cartographer/kalman_filter/odometry_state_tracker.h] *)

Module kalman_filter.

(** Modelled from the spec: [common::Time] (common/time.h is not part of
    these sources), a point in time counted in ticks of a signed 64 bit
    integer; [common::Time::min()] is the least of them, the specification's
    minimum timestamp. *)
Definition Time : Type := Z.

Definition Time_min : Time := - 2 ^ 63.

(** C++ [double]; only constants of it are used. *)
Definition double : Type := spec_float.

Module Rigid3d.

(** Modelled from the spec: [transform::Rigid3d] (transform/rigid_transform.h
    is not part of these sources), a translation vector and a rotation, the
    rotation as a unit quaternion [(w, x, y, z)]. *)
Record t : Type := Build {
  translation : double * double * double;
  rotation : double * double * double * double
}.

(** [transform::Rigid3d::Identity()]: no translation, no rotation. *)
Definition Identity : t :=
  let zero := S754_zero false in
  let one := S754_finite false 4503599627370496 (-52) in
  Build (zero, zero, zero) (one, zero, zero, zero).

End Rigid3d.

Record OdometryState : Type := {
  time : Time;
  odometer_pose : Rigid3d.t;
  state_pose : Rigid3d.t
}.

(** The default constructor [OdometryState()], from the default member
    initializers of the struct. *)
Definition OdometryState_default : OdometryState := {|
  time := Time_min;
  odometer_pose := Rigid3d.Identity;
  state_pose := Rigid3d.Identity
|}.

(** The members of [OdometryStateTracker]: the deque, its front first, and
    [size_t window_size_]. *)
Record OdometryStateTracker : Type := {
  odometry_states_ : list OdometryState;
  window_size_ : Z
}.

(** The conversion of an [int] to [size_t] (64 bit). *)
Definition size_t_of_int (n : Z) : Z := n mod 2 ^ 64.

(** Modelled from the spec: the constructor and the member functions of
    [OdometryStateTracker] (odometry_state_tracker.cc is not part of these
    sources; the header declares them).  A tracker is created empty with its
    [window_size]. *)
Definition new (window_size : Z) : OdometryStateTracker := {|
  odometry_states_ := [];
  window_size_ := size_t_of_int window_size
|}.

(** Modelled from the spec: [States()], the read-only view, oldest to
    newest. *)
Definition odometry_states (tracker : OdometryStateTracker)
    : list OdometryState :=
  odometry_states_ tracker.

(** Modelled from the spec: [AddState] appends to the back; if the size
    exceeds [window_size], it evicts from the front. *)
Definition AddOdometryState (tracker : OdometryStateTracker)
    (odometry_state : OdometryState) : OdometryStateTracker :=
  let states := odometry_states_ tracker ++ [odometry_state] in
  {| odometry_states_ :=
       if window_size_ tracker <? Z.of_nat (length states)
       then tail states else states;
     window_size_ := window_size_ tracker |}.

(** Modelled from the spec: [Empty()] is true iff no state is stored. *)
Definition empty (tracker : OdometryStateTracker) : bool :=
  match odometry_states_ tracker with
  | [] => true
  | _ :: _ => false
  end.

(** Modelled from the spec: [Newest()] returns the most recently added
    state, or a default state if none is present. *)
Definition newest (tracker : OdometryStateTracker) : OdometryState :=
  default OdometryState_default (last (odometry_states_ tracker)).

(** The tracker after the states [added] have been added in order. *)
Definition add_all (tracker : OdometryStateTracker)
    (added : list OdometryState) : OdometryStateTracker :=
  fold_left AddOdometryState added tracker.

End kalman_filter.

(** ** Inputs of the closed examples *)

Module examples.

Import Float32 sensor.

(** [0.1f], the single precision number nearest to one tenth. *)
Definition tenth : float := S754_finite false 13421773 (-27).

(** A scan of one beam at the angle 0 whose first echo is [1.f]. *)
Definition one_beam : LaserScan := {|
  angle_min := zero;
  angle_max := of_Z 1;
  angle_increment := of_Z 1;
  range := [[of_Z 1]]
|}.

(** A scan of four beams: two echoes, none, a NaN, an echo below zero. *)
Definition four_beams : LaserScan := {|
  angle_min := zero;
  angle_max := of_Z 3;
  angle_increment := of_Z 1;
  range := [[of_Z 2; of_Z 3]; []; [nan]; [of_Z (-1)]]
|}.

(** A scan of eight beams without echoes, a tenth of a radian apart. *)
Definition eight_silent_beams : LaserScan := {|
  angle_min := zero;
  angle_max := of_Z 1;
  angle_increment := tenth;
  range := replicate 8 []
|}.

(** A 3D fan of two returns, the farther one first, each with its
    reflectivity. *)
Definition two_returns : LaserFan3D.t := {|
  LaserFan3D.origin := Vector3f.Build zero zero zero;
  LaserFan3D.returns :=
    [Vector3f.Build (of_Z 5) zero zero; Vector3f.Build (of_Z 1) zero zero];
  LaserFan3D.misses := [];
  LaserFan3D.reflectivities := [10; 20]
|}.

(** A 3D fan with a reflectivity and no return. *)
Definition stray_reflectivity : LaserFan3D.t := {|
  LaserFan3D.origin := Vector3f.Build zero zero zero;
  LaserFan3D.returns := [];
  LaserFan3D.misses := [];
  LaserFan3D.reflectivities := [7]
|}.

(** [Eigen::Vector3f::norm()] of a vector on the x axis, the absolute value
    of its first coefficient (the square root of its square, both exact for
    the small integers used here).  The closed examples below only take the
    norm of such vectors. *)
Definition norm_on_x_axis (v : Vector3f.t) : float :=
  SFabs (Vector3f.x v).

(** Three odometry states, told apart by their times. *)
Definition state_at (t : Z) : kalman_filter.OdometryState := {|
  kalman_filter.time := t;
  kalman_filter.odometer_pose := kalman_filter.Rigid3d.Identity;
  kalman_filter.state_pose := kalman_filter.Rigid3d.Identity
|}.

End examples.

(** * Part II: the properties *)

(** ** Comparisons of floating point numbers *)

Module Float32_facts.

Import Float32.

Lemma SFcompare_antisym (a b : float) :
  SFcompare b a = CompOpp <$> SFcompare a b.
Proof.
  destruct a as [sa|sa| |sa ma ea], b as [sb|sb| |sb mb eb]; simpl;
    try reflexivity;
    try (destruct sa; reflexivity);
    try (destruct sb; reflexivity);
    try (destruct sa, sb; reflexivity).
  assert (Hm : PosDef.Pos.compare_cont Eq mb ma
               = CompOpp (PosDef.Pos.compare_cont Eq ma mb))
    by (symmetry; exact (Pos.compare_cont_antisym ma mb Eq)).
  destruct sa, sb; simpl; try reflexivity; f_equal;
    rewrite (Z.compare_antisym ea eb);
    destruct (ea ?= eb); simpl; try reflexivity.
  - now rewrite Hm.
  - exact Hm.
Qed.

Lemma compare_not_nan (a b : float) :
  isnan a = false -> isnan b = false -> is_Some (SFcompare a b).
Proof.
  destruct a, b; simpl; intros Ha Hb; try discriminate; eauto.
Qed.

(** On numbers, [a >= b] is the negation of [a < b]. *)
Lemma ge_negb_lt (a b : float) :
  isnan a = false -> isnan b = false -> ge a b = negb (lt a b).
Proof.
  intros Ha Hb. unfold ge, lt, SFleb, SFltb.
  rewrite (SFcompare_antisym a b).
  destruct (compare_not_nan a b Ha Hb) as [c ->]. now destruct c.
Qed.

(** On numbers, [a <= b] is the negation of [a > b]. *)
Lemma le_negb_gt (a b : float) :
  isnan a = false -> isnan b = false -> le a b = negb (gt a b).
Proof.
  intros Ha Hb. unfold le, gt, SFleb, SFltb.
  rewrite (SFcompare_antisym a b).
  destruct (compare_not_nan a b Ha Hb) as [c ->]. now destruct c.
Qed.

(** A comparison that holds has no NaN operand. *)
Lemma le_true_not_nan (a b : float) :
  le a b = true -> isnan a = false /\ isnan b = false.
Proof. destruct a, b; simpl; intros Hle; try discriminate; auto. Qed.

Lemma lt_true_not_nan (a b : float) :
  lt a b = true -> isnan a = false /\ isnan b = false.
Proof. destruct a, b; simpl; intros Hlt; try discriminate; auto. Qed.

(** [a < b] excludes [a >= b], and [a <= b] excludes [a > b]. *)
Lemma lt_true_ge_false (a b : float) : lt a b = true -> ge a b = false.
Proof.
  intros Hlt. destruct (lt_true_not_nan a b Hlt) as [Ha Hb].
  now rewrite ge_negb_lt, Hlt.
Qed.

Lemma le_true_gt_false (a b : float) : le a b = true -> gt a b = false.
Proof.
  intros Hle. destruct (le_true_not_nan a b Hle) as [Ha Hb].
  rewrite le_negb_gt in Hle by assumption. now destruct (gt a b).
Qed.

End Float32_facts.

(** ** Fan construction *)

Module ToLaserFan_facts.

Import Float32 Float32_facts sensor.

Section Facts.

Variable Rotation2Df : float -> Vector2f.t -> Vector2f.t.
Variables min_range max_range missing_echo_ray_length : float.

#[local] Abbreviation body :=
  (ToLaserFan_body Rotation2Df min_range max_range missing_echo_ray_length).
#[local] Abbreviation loop :=
  (ToLaserFan_loop Rotation2Df min_range max_range missing_echo_ray_length).

(** One more beam is one more run of the loop body. *)
Lemma loop_snoc (proto : LaserScan) (beams : list (list float))
    (echoes : list float) :
  loop proto (beams ++ [echoes])
  = body (angle_increment proto) (loop proto beams) echoes.
Proof. unfold ToLaserFan_loop. now rewrite fold_left_app. Qed.

(** The body always advances the angle, whatever the echoes are. *)
Lemma body_angle (increment : float) (state : float * LaserFan.t)
    (echoes : list float) :
  fst (body increment state echoes) = add (fst state) increment.
Proof. now destruct state. Qed.

(** The angle that the loop has reached depends on the number of beams
    processed only. *)
Lemma loop_angle (proto : LaserScan) (beams : list (list float)) :
  fst (loop proto beams) = beam_angle proto (length beams).
Proof.
  induction beams as [|echoes beams IH] using rev_ind; [reflexivity|].
  rewrite loop_snoc, body_angle, IH, length_app, Nat.add_comm.
  reflexivity.
Qed.

(** The guard of the loop body is the classification of the first echo. *)
Lemma body_guard (first_echo : float) :
  isnan min_range = false ->
  negb (isnan first_echo) && ge first_echo min_range
  = negb (isnan first_echo || lt first_echo min_range).
Proof.
  intros Hmin. destruct (isnan first_echo) eqn:Hnan; simpl.
  - reflexivity.
  - now apply ge_negb_lt.
Qed.

(** What one run of the body adds to the two clouds. *)
Lemma body_fan (proto : LaserScan) (angle : float) (fan : LaserFan.t)
    (i : nat) (echoes : list float) :
  isnan min_range = false ->
  angle = beam_angle proto i ->
  snd (body (angle_increment proto) (angle, fan) echoes)
  = LaserFan.Build
      (LaserFan.origin fan)
      (LaserFan.point_cloud fan
         ++ beam_returns Rotation2Df min_range max_range proto i echoes)
      (LaserFan.missing_echo_point_cloud fan
         ++ beam_misses Rotation2Df min_range max_range
              missing_echo_ray_length proto i echoes).
Proof.
  intros Hmin ->. destruct fan as [o returns misses].
  destruct echoes as [|first_echo echoes]; simpl.
  - now rewrite !app_nil_r.
  - unfold classify_first_echo. rewrite body_guard by assumption.
    destruct (isnan first_echo || lt first_echo min_range); simpl.
    + now rewrite !app_nil_r.
    + destruct (le first_echo max_range); simpl; now rewrite !app_nil_r.
Qed.

(** The fan that the loop has built: beam after beam, in order. *)
Lemma loop_fan (proto : LaserScan) (beams : list (list float)) :
  isnan min_range = false ->
  snd (loop proto beams)
  = LaserFan.Build Vector2f.Zero
      (concat (imap (beam_returns Rotation2Df min_range max_range proto)
                 beams))
      (concat (imap (beam_misses Rotation2Df min_range max_range
                       missing_echo_ray_length proto) beams)).
Proof.
  intros Hmin.
  induction beams as [|echoes beams IH] using rev_ind; [reflexivity|].
  rewrite loop_snoc.
  pose proof (loop_angle proto beams) as Hangle.
  destruct (loop proto beams) as [angle fan]. simpl in IH, Hangle.
  rewrite (body_fan proto angle fan (length beams)) by assumption.
  rewrite IH; simpl. rewrite !imap_app, !concat_app; simpl.
  rewrite !Nat.add_0_r, !app_nil_r. reflexivity.
Qed.

(** The three checks, as one. *)
Lemma ToLaserFan_checked (proto : LaserScan) :
  ToLaserFan Rotation2Df min_range max_range missing_echo_ray_length proto
  = if ge min_range zero && gt (angle_increment proto) zero
       && gt (angle_max proto) (angle_min proto)
    then Some (snd (loop proto (range proto)))
    else None.
Proof.
  unfold ToLaserFan.
  destruct (ge min_range zero), (gt (angle_increment proto) zero),
    (gt (angle_max proto) (angle_min proto)); reflexivity.
Qed.

(** C9: a beam without echoes adds no point to the returns nor to the misses,
    and the angle still advances by the increment for it; so the angle at
    which a beam is processed is fixed by its index in the scan, whatever the
    beams before it hold. *)
Theorem ToLaserFan_empty_beam_advances_angle
    (proto : LaserScan) (before : list (list float)) :
  ToLaserFan_loop Rotation2Df min_range max_range missing_echo_ray_length
    proto (before ++ [[]])
  = (add (fst (ToLaserFan_loop Rotation2Df min_range max_range
                 missing_echo_ray_length proto before))
         (angle_increment proto),
     snd (ToLaserFan_loop Rotation2Df min_range max_range
            missing_echo_ray_length proto before))
  /\ fst (ToLaserFan_loop Rotation2Df min_range max_range
            missing_echo_ray_length proto before)
     = beam_angle proto (length before)
  /\ (forall others : list (list float),
        length others = length before ->
        fst (ToLaserFan_loop Rotation2Df min_range max_range
               missing_echo_ray_length proto others)
        = fst (ToLaserFan_loop Rotation2Df min_range max_range
                 missing_echo_ray_length proto before)).
Proof.
  split; [|split].
  - rewrite loop_snoc. now destruct (loop proto before).
  - apply loop_angle.
  - intros others Hlen. now rewrite !loop_angle, Hlen.
Qed.

(** C2, amended: when construction succeeds, the fan has the origin zero and
    its two clouds are what the beams add one after the other, in the order of
    the scan.  Beam [i] is processed at the angle obtained by adding the
    increment [i] times to [angle_min] and is classified by its first echo
    only: NaN or strictly below [min_range], no point; otherwise at most
    [max_range], the return at the echo's distance along the beam; otherwise
    a missing echo at [missing_echo_ray_length] along the beam.  When
    [max_range] is a number, "otherwise" is "exceeds [max_range]". *)
Theorem ToLaserFan_classifies_beams (proto : LaserScan) (fan : LaserFan.t) :
  ToLaserFan Rotation2Df min_range max_range missing_echo_ray_length proto
  = Some fan ->
  LaserFan.origin fan = Vector2f.Zero
  /\ LaserFan.point_cloud fan
     = concat (imap (beam_returns Rotation2Df min_range max_range proto)
                 (range proto))
  /\ LaserFan.missing_echo_point_cloud fan
     = concat (imap (beam_misses Rotation2Df min_range max_range
                       missing_echo_ray_length proto) (range proto))
  /\ (isnan max_range = false ->
      forall first_echo : float,
        classify_first_echo min_range max_range first_echo
        = classify_first_echo_exceeds min_range max_range first_echo).
Proof.
  rewrite ToLaserFan_checked. intros Hfan.
  destruct (ge min_range zero) eqn:Hmin; [|discriminate].
  apply le_true_not_nan in Hmin as [_ Hmin].
  destruct (gt (angle_increment proto) zero); [|discriminate].
  destruct (gt (angle_max proto) (angle_min proto)); [|discriminate].
  simpl in Hfan. injection Hfan as <-. rewrite loop_fan by assumption.
  repeat split.
  intros Hmax first_echo.
  unfold classify_first_echo, classify_first_echo_exceeds.
  destruct (isnan first_echo) eqn:Hnan; simpl; [reflexivity|].
  destruct (lt first_echo min_range); [reflexivity|].
  rewrite le_negb_gt by assumption.
  now destruct (gt first_echo max_range).
Qed.

(** C6, amended: construction aborts exactly when one of the three checks
    [min_range >= 0], [angle_increment > 0], [angle_max > angle_min] does not
    hold, which it does not when an operand is NaN; when all three hold it
    succeeds whatever the ranges are; and [min_range < 0],
    [angle_increment <= 0] and [angle_max <= angle_min] each make it abort. *)
Theorem ToLaserFan_aborts_iff (proto : LaserScan) :
  (ToLaserFan Rotation2Df min_range max_range missing_echo_ray_length proto
   = None
   <-> ge min_range zero = false
       \/ gt (angle_increment proto) zero = false
       \/ gt (angle_max proto) (angle_min proto) = false)
  /\ (ge min_range zero = true
      /\ gt (angle_increment proto) zero = true
      /\ gt (angle_max proto) (angle_min proto) = true
      <-> is_Some (ToLaserFan Rotation2Df min_range max_range
                     missing_echo_ray_length proto))
  /\ (lt min_range zero = true
      \/ le (angle_increment proto) zero = true
      \/ le (angle_max proto) (angle_min proto) = true
      -> ToLaserFan Rotation2Df min_range max_range missing_echo_ray_length
           proto = None).
Proof.
  rewrite ToLaserFan_checked.
  split; [|split].
  - destruct (ge min_range zero), (gt (angle_increment proto) zero),
      (gt (angle_max proto) (angle_min proto)); simpl; split;
      intros Hyp; try discriminate; try reflexivity; auto;
      destruct Hyp as [Hyp|[Hyp|Hyp]]; discriminate.
  - destruct (ge min_range zero), (gt (angle_increment proto) zero),
      (gt (angle_max proto) (angle_min proto)); simpl; split;
      intros Hyp; eauto;
      try (destruct Hyp as (H1 & H2 & H3); discriminate);
      try (destruct Hyp as [? Hyp]; discriminate).
  - intros [Hlt|[Hle|Hle]].
    + now rewrite (lt_true_ge_false _ _ Hlt).
    + apply le_true_gt_false in Hle. unfold gt in Hle |- *.
      rewrite Hle. now rewrite andb_false_r.
    + apply le_true_gt_false in Hle. unfold gt in Hle |- *.
      rewrite Hle. now rewrite andb_false_r.
Qed.

End Facts.

Import examples.

(** The hypothesis of [ToLaserFan_classifies_beams] holds of the scan
    [four_beams] with [min_range = 0], [max_range = 5]: its only point is the
    return of beam 0, at the first echo [2.f]. *)
Lemma ToLaserFan_classifies_beams_witness :
  ToLaserFan Rotation2Df_zero zero (of_Z 5) (of_Z 9) four_beams
  = Some (LaserFan.Build Vector2f.Zero [Vector2f.Build (of_Z 2) zero] [])
  /\ concat (imap (beam_returns Rotation2Df_zero zero (of_Z 5) four_beams)
               (range four_beams))
     = [Vector2f.Build (of_Z 2) zero].
Proof.
  split; [reflexivity|].
  symmetry.
  apply (ToLaserFan_classifies_beams Rotation2Df_zero zero (of_Z 5) (of_Z 9)
           four_beams
           (LaserFan.Build Vector2f.Zero [Vector2f.Build (of_Z 2) zero] [])).
  reflexivity.
Defined.

(** C2 fails as stated, twice.  With [max_range] NaN the first echo [1.f] of
    [one_beam] is a number, is not below [min_range = 0] and does not exceed
    [max_range], yet it is recorded as a missing echo and not as a return.
    And in [eight_silent_beams] the loop reaches beam 7 at an angle that is
    not [angle_min + 7 * angle_increment]. *)
Lemma ToLaserFan_classification_not_as_stated :
  ToLaserFan Rotation2Df_zero zero nan (of_Z 5) one_beam
  = Some (LaserFan.Build Vector2f.Zero [] [Vector2f.Build (of_Z 5) zero])
  /\ isnan (of_Z 1) = false
  /\ lt (of_Z 1) zero = false
  /\ gt (of_Z 1) nan = false
  /\ classify_first_echo_exceeds zero nan (of_Z 1) = valid_return
  /\ eqb (fst (ToLaserFan_loop Rotation2Df_zero zero (of_Z 5) (of_Z 9)
                 eight_silent_beams (take 7 (range eight_silent_beams))))
         (nominal_beam_angle eight_silent_beams 7)
     = false.
Proof. repeat split. Qed.

(** C6 fails as stated: with [min_range] NaN construction aborts although
    [min_range < 0], [angle_increment <= 0] and [angle_max <= angle_min] are
    all false. *)
Lemma ToLaserFan_aborts_on_nan :
  ToLaserFan Rotation2Df_zero nan (of_Z 5) (of_Z 9) one_beam = None
  /\ lt nan zero = false
  /\ le (angle_increment one_beam) zero = false
  /\ le (angle_max one_beam) (angle_min one_beam) = false.
Proof. repeat split. Qed.

End ToLaserFan_facts.

(** ** Filtering by range *)

Module FilterLaserFanByMaxRange_facts.

Import Float32 sensor.

Section Facts.

Variable norm : Vector3f.t -> float.

(** The loop appends the points that pass the test to the returns, in
    order, and touches nothing else. *)
Lemma filter_loop (origin : Vector3f.t) (max_range : float)
    (points : PointCloud) (result : LaserFan3D.t) :
  fold_left
    (fun result return_ =>
       if le (norm (Vector3f.minus return_ origin)) max_range
       then
         LaserFan3D.Build
           (LaserFan3D.origin result)
           (LaserFan3D.returns result ++ [return_])
           (LaserFan3D.misses result)
           (LaserFan3D.reflectivities result)
       else result)
    points result
  = LaserFan3D.Build
      (LaserFan3D.origin result)
      (LaserFan3D.returns result
         ++ filter (fun p => le (norm (Vector3f.minus p origin)) max_range
                             = true) points)
      (LaserFan3D.misses result)
      (LaserFan3D.reflectivities result).
Proof.
  revert result.
  induction points as [|p points IH]; intros result; cbn [fold_left].
  - rewrite filter_nil, app_nil_r. now destruct result.
  - rewrite IH, filter_cons.
    destruct (le (norm (Vector3f.minus p origin)) max_range) eqn:Hle.
    + rewrite decide_True by reflexivity. cbn.
      now rewrite <- app_assoc.
    + rewrite decide_False by discriminate. reflexivity.
Qed.

Lemma FilterLaserFanByMaxRange_filter (laser_fan : LaserFan3D.t)
    (max_range : float) :
  FilterLaserFanByMaxRange norm laser_fan max_range
  = LaserFan3D.Build
      (LaserFan3D.origin laser_fan)
      (filter (within norm laser_fan max_range)
         (LaserFan3D.returns laser_fan))
      [] [].
Proof. unfold FilterLaserFanByMaxRange. now rewrite filter_loop. Qed.

(** C3: every return of the filtered fan is within [max_range] of the
    origin of the fan, every return of the input that is within [max_range]
    is kept, and the misses and the reflectivities of the result are empty
    whatever the input holds.  The origin is kept too, and so is the order of
    the returns. *)
Theorem FilterLaserFanByMaxRange_keeps_within (laser_fan : LaserFan3D.t)
    (max_range : float) :
  let result := FilterLaserFanByMaxRange norm laser_fan max_range in
  LaserFan3D.origin result = LaserFan3D.origin laser_fan
  /\ (forall p : Vector3f.t,
        p ∈ LaserFan3D.returns result -> within norm laser_fan max_range p)
  /\ (forall p : Vector3f.t,
        p ∈ LaserFan3D.returns laser_fan ->
        within norm laser_fan max_range p ->
        p ∈ LaserFan3D.returns result)
  /\ LaserFan3D.returns result
     = filter (within norm laser_fan max_range) (LaserFan3D.returns laser_fan)
  /\ LaserFan3D.misses result = []
  /\ LaserFan3D.reflectivities result = [].
Proof.
  rewrite FilterLaserFanByMaxRange_filter; simpl.
  repeat split.
  - intros p Hp. now apply list_elem_of_filter in Hp as [Hp _].
  - intros p Hp Hwithin. now apply list_elem_of_filter.
Qed.

End Facts.

End FilterLaserFanByMaxRange_facts.

(** ** Reordering of the reflectivities *)

Module ReorderReflectivities_facts.

Import sensor.

Lemma vector_at_is_Some {A : Type} (v : list A) (j : Z) :
  is_Some (vector_at v j) <-> 0 <= j < Z.of_nat (length v).
Proof.
  unfold vector_at. destruct (Z.ltb_spec j 0) as [Hneg|Hpos].
  - split; [intros [a Ha]; discriminate | lia].
  - rewrite lookup_lt_is_Some. lia.
Qed.

Lemma vector_at_of_nat {A : Type} (v : list A) (i : nat) :
  vector_at v (Z.of_nat i) = v !! i.
Proof.
  unfold vector_at. destruct (Z.ltb_spec (Z.of_nat i) 0); [lia|].
  now rewrite Nat2Z.id.
Qed.

(** The loop ends normally exactly when every read it is about to make is
    in bounds. *)
Lemma reorder_loop_is_Some (reflectivities : list uint8) (new_to_old : list Z)
    (remaining i : nat) (reordered : list uint8) :
  is_Some (snd (ReorderReflectivities_loop reflectivities new_to_old
                  remaining i reordered))
  <-> forall k : nat, (i <= k < i + remaining)%nat ->
        exists j : Z, new_to_old !! k = Some j
                      /\ is_Some (vector_at reflectivities j).
Proof.
  revert i reordered.
  induction remaining as [|remaining IH]; intros i reordered; simpl.
  - split; [intros _ k Hk; lia | eauto].
  - destruct (new_to_old !! i) as [j|] eqn:Hj.
    + destruct (vector_at reflectivities j) as [r|] eqn:Hr.
      * specialize (IH (S i) (<[i:=r]> reordered)).
        destruct (ReorderReflectivities_loop reflectivities new_to_old
                    remaining (S i) (<[i:=r]> reordered)) as [trace result].
        simpl in *. rewrite IH. split.
        -- intros Hall k Hk. destruct (decide (k = i)) as [->|Hne].
           ++ exists j. rewrite Hr. eauto.
           ++ apply Hall. lia.
        -- intros Hall k Hk. apply Hall. lia.
      * simpl. split; [intros [res Hres]; discriminate|].
        intros Hall. destruct (Hall i) as (j' & Hj' & Hsome); [lia|].
        rewrite Hj in Hj'. injection Hj' as <-.
        rewrite Hr in Hsome. now destruct Hsome.
    + simpl. split; [intros [res Hres]; discriminate|].
      intros Hall. destruct (Hall i) as (j' & Hj' & _); [lia|].
      rewrite Hj in Hj'. discriminate.
Qed.

(** What the loop leaves in [reordered]: the entries before [i] are kept, and
    entry [k] of those it runs over is [reflectivities[new_to_old[k]]]. *)
Lemma reorder_loop_result (reflectivities : list uint8) (new_to_old : list Z)
    (remaining i : nat) (reordered res : list uint8) :
  (i + remaining <= length reordered)%nat ->
  snd (ReorderReflectivities_loop reflectivities new_to_old
         remaining i reordered) = Some res ->
  length res = length reordered
  /\ (forall k : nat, (k < i)%nat -> res !! k = reordered !! k)
  /\ (forall k : nat, (i <= k < i + remaining)%nat ->
        exists j : Z, new_to_old !! k = Some j
                      /\ res !! k = vector_at reflectivities j).
Proof.
  revert i reordered.
  induction remaining as [|remaining IH]; intros i reordered Hlen; simpl.
  - intros [= <-]. split; [reflexivity|]. split; [reflexivity|].
    intros k Hk. lia.
  - destruct (new_to_old !! i) as [j|] eqn:Hj; [|discriminate].
    destruct (vector_at reflectivities j) as [r|] eqn:Hr; [|discriminate].
    specialize (IH (S i) (<[i:=r]> reordered)).
    destruct (ReorderReflectivities_loop reflectivities new_to_old
                remaining (S i) (<[i:=r]> reordered)) as [trace result].
    simpl in *. intros Hres.
    destruct IH as (Hl & Hkept & Hread);
      [rewrite length_insert; lia | assumption |].
    rewrite length_insert in Hl. split; [assumption|]. split.
    + intros k Hk. rewrite Hkept by lia. apply list_lookup_insert_ne. lia.
    + intros k Hk. destruct (decide (k = i)) as [->|Hne].
      * exists j. split; [assumption|].
        rewrite Hkept, Hr by lia. apply list_lookup_insert_eq. lia.
      * apply Hread. lia.
Qed.

(** The reads of a loop that ends normally: [new_to_old[k]] and then
    [reflectivities[new_to_old[k]]], for every [k] it runs over. *)
Lemma reorder_loop_accesses (reflectivities : list uint8) (new_to_old : list Z)
    (remaining i : nat) (reordered res : list uint8) :
  snd (ReorderReflectivities_loop reflectivities new_to_old
         remaining i reordered) = Some res ->
  fst (ReorderReflectivities_loop reflectivities new_to_old
         remaining i reordered)
  = concat ((fun k => [read_new_to_old k;
                       read_reflectivities (default 0 (new_to_old !! k))])
              <$> seq i remaining).
Proof.
  revert i reordered.
  induction remaining as [|remaining IH]; intros i reordered; simpl;
    [reflexivity|].
  destruct (new_to_old !! i) as [j|] eqn:Hj; [|discriminate].
  destruct (vector_at reflectivities j) as [r|] eqn:Hr; [|discriminate].
  specialize (IH (S i) (<[i:=r]> reordered)).
  destruct (ReorderReflectivities_loop reflectivities new_to_old
              remaining (S i) (<[i:=r]> reordered)) as [trace result].
  simpl in *. intros Hres. now rewrite IH.
Qed.

(** The result of [ReorderReflectivities], entry by entry. *)
Lemma ReorderReflectivities_Some (reflectivities : list uint8)
    (new_to_old : list Z) (res : list uint8) :
  ReorderReflectivities reflectivities new_to_old = Some res ->
  length res = length reflectivities
  /\ (forall k : nat, (k < length reflectivities)%nat ->
        exists j : Z, new_to_old !! k = Some j
                      /\ res !! k = vector_at reflectivities j).
Proof.
  intros Hres.
  apply reorder_loop_result in Hres as (Hlen & _ & Hread);
    rewrite ?length_replicate in *; [|lia].
  split; [assumption|]. intros k Hk. apply Hread. lia.
Qed.

(** The precondition under which every read is in bounds. *)
Lemma ReorderReflectivities_is_Some (reflectivities : list uint8)
    (new_to_old : list Z) :
  is_Some (ReorderReflectivities reflectivities new_to_old)
  <-> (length reflectivities <= length new_to_old)%nat
      /\ (forall (i : nat) (j : Z),
            (i < length reflectivities)%nat ->
            new_to_old !! i = Some j ->
            0 <= j < Z.of_nat (length reflectivities)).
Proof.
  unfold ReorderReflectivities, ReorderReflectivities_run.
  rewrite reorder_loop_is_Some. split.
  - intros Hall. split.
    + destruct (length reflectivities) as [|n] eqn:Hn; [lia|].
      destruct (Hall n) as (j & Hj & _); [lia|].
      apply lookup_lt_Some in Hj. lia.
    + intros i j Hi Hj. destruct (Hall i) as (j' & Hj' & Hsome); [lia|].
      rewrite Hj in Hj'. injection Hj' as <-.
      now apply vector_at_is_Some.
  - intros [Hlen Hidx] k Hk.
    destruct (lookup_lt_is_Some_2 new_to_old k) as [j Hj]; [lia|].
    exists j. split; [assumption|].
    apply vector_at_is_Some. apply (Hidx k); [lia | assumption].
Qed.

(** A permutation of the indices of the returns satisfies the precondition
    when there are as many reflectivities as returns. *)
Lemma ReorderReflectivities_permutation (reflectivities : list uint8)
    (new_to_old : list Z) (n : nat) :
  length reflectivities = n ->
  new_to_old ≡ₚ seqZ 0 (Z.of_nat n) ->
  is_Some (ReorderReflectivities reflectivities new_to_old).
Proof.
  intros Hn Hperm. apply ReorderReflectivities_is_Some. split.
  - apply Permutation_length in Hperm.
    rewrite length_seqZ in Hperm. lia.
  - intros i j Hi Hj. apply list_elem_of_lookup_2 in Hj.
    rewrite Hperm in Hj. apply elem_of_seqZ in Hj. lia.
Qed.

(** C10: when it ends normally, [ReorderReflectivities] has read
    [new_to_old[i]] and [reflectivities[new_to_old[i]]] for every [i] below
    [len(reflectivities)], and nothing else.  Every read is in bounds exactly
    when [new_to_old] has at least as many entries as there are
    reflectivities and each of its first [len(reflectivities)] entries is an
    index into the reflectivities; [Compress] is safe exactly then.  It is so
    when there are as many reflectivities as returns and [new_to_old] is a
    permutation of the indices of the returns.  Without reflectivities
    nothing is read. *)
Theorem ReorderReflectivities_in_bounds_iff (reflectivities : list uint8)
    (new_to_old : list Z) :
  (is_Some (ReorderReflectivities reflectivities new_to_old)
   <-> (length reflectivities <= length new_to_old)%nat
       /\ (forall (i : nat) (j : Z),
             (i < length reflectivities)%nat ->
             new_to_old !! i = Some j ->
             0 <= j < Z.of_nat (length reflectivities)))
  /\ (is_Some (ReorderReflectivities reflectivities new_to_old) ->
      ReorderReflectivities_accesses reflectivities new_to_old
      = concat ((fun i => [read_new_to_old i;
                           read_reflectivities (default 0 (new_to_old !! i))])
                  <$> seq 0 (length reflectivities)))
  /\ (forall returns : PointCloud,
        length reflectivities = length returns ->
        new_to_old ≡ₚ seqZ 0 (Z.of_nat (length returns)) ->
        is_Some (ReorderReflectivities reflectivities new_to_old))
  /\ ReorderReflectivities_accesses [] new_to_old = []
  /\ ReorderReflectivities [] new_to_old = Some []
  /\ (forall (codec : CompressedPointCloudOps) (laser_fan : LaserFan3D.t),
        LaserFan3D.reflectivities laser_fan = reflectivities ->
        snd (CompressAndReturnOrder (LaserFan3D.returns laser_fan))
        = new_to_old ->
        (is_Some (Compress laser_fan)
         <-> is_Some (ReorderReflectivities reflectivities new_to_old))).
Proof.
  split; [apply ReorderReflectivities_is_Some|].
  split; [intros [res Hres]; now apply (reorder_loop_accesses _ _ _ _ _ res)|].
  split; [intros returns; apply ReorderReflectivities_permutation|].
  repeat split.
  - intros [c Hc]. unfold Compress in Hc. subst.
    destruct (CompressAndReturnOrder (LaserFan3D.returns laser_fan))
      as [compressed order]. simpl in *.
    destruct (ReorderReflectivities (LaserFan3D.reflectivities laser_fan)
                order); [eauto | discriminate].
  - intros [res Hres]. unfold Compress. subst.
    destruct (CompressAndReturnOrder (LaserFan3D.returns laser_fan))
      as [compressed order]. simpl in *. rewrite Hres. simpl. eauto.
Qed.

End ReorderReflectivities_facts.

(** ** Compression and decompression *)

Module Compress_facts.

Import sensor ReorderReflectivities_facts.

(** Reading a vector at the entries of a permutation of its indices gives a
    permutation of the vector. *)
Lemma reads_Permutation {A : Type} (d : A) (v l : list A) (order : list Z) :
  Forall2 (fun a j => vector_at v j = Some a) l order ->
  order ≡ₚ seqZ 0 (Z.of_nat (length v)) ->
  l ≡ₚ v.
Proof.
  intros Hreads.
  assert (Hl : l = (fun j => default d (vector_at v j)) <$> order).
  { induction Hreads as [|a j l order Ha Hreads IH]; [reflexivity|].
    rewrite fmap_cons, Ha. simpl. f_equal. apply IH. }
  intros Hperm. rewrite Hl, Hperm.
  assert (Hv : (fun j => default d (vector_at v j))
                 <$> seqZ 0 (Z.of_nat (length v)) = v); [|now rewrite Hv].
  apply list_eq. intros i. rewrite list_lookup_fmap.
  destruct (decide (i < length v)%nat) as [Hi|Hi].
  - rewrite lookup_seqZ_lt by lia. simpl.
    rewrite Z.add_0_l, vector_at_of_nat.
    destruct (lookup_lt_is_Some_2 v i Hi) as [a ->]. reflexivity.
  - rewrite lookup_seqZ_ge by lia.
    symmetry. apply lookup_ge_None. lia.
Qed.

Section Facts.

Context `{CompressedPointCloudOps}.

(** What it means for two points to agree within the quantization
    tolerance is left to the encoding. *)
Variable near : Vector3f.t -> Vector3f.t -> Prop.

Lemma Compress_Some (laser_fan : LaserFan3D.t)
    (compressed : CompressedPointCloud) (new_to_old : list Z)
    (reordered : list uint8) :
  CompressAndReturnOrder (LaserFan3D.returns laser_fan)
  = (compressed, new_to_old) ->
  ReorderReflectivities (LaserFan3D.reflectivities laser_fan) new_to_old
  = Some reordered ->
  Compress laser_fan
  = Some (CompressedLaserFan3D.Build _
            (LaserFan3D.origin laser_fan)
            compressed
            (CompressedPointCloud_of (LaserFan3D.misses laser_fan))
            reordered).
Proof. intros Hc Hr. unfold Compress. now rewrite Hc, Hr. Qed.

(** C1, amended: let the fan have no reflectivities or as many as returns,
    and let the encoding of its returns do what the specification says of
    it: [new_to_old] is a permutation of the indices of the returns, and
    decoded point [i] is near the return [new_to_old[i]].  Then [Compress]
    succeeds and [Decompress] gives a fan with the same origin, the same
    returns as a multiset up to nearness, and the same reflectivities as a
    multiset, in the order of the decoded returns and not in the original
    one: the reflectivity at [i] is the original reflectivity at
    [new_to_old[i]], that of the return which decoded point [i] comes from. *)
Theorem Decompress_Compress_round_trip (laser_fan : LaserFan3D.t) :
  reorders_within_tolerance near (LaserFan3D.returns laser_fan) ->
  LaserFan3D.reflectivities laser_fan = []
  \/ length (LaserFan3D.reflectivities laser_fan)
     = length (LaserFan3D.returns laser_fan) ->
  exists compressed_laser_fan : CompressedLaserFan3D.t,
    Compress laser_fan = Some compressed_laser_fan
    /\ let decoded := Decompress compressed_laser_fan in
       let new_to_old :=
         snd (CompressAndReturnOrder (LaserFan3D.returns laser_fan)) in
       LaserFan3D.origin decoded = LaserFan3D.origin laser_fan
       /\ (exists l : PointCloud,
             l ≡ₚ LaserFan3D.returns laser_fan
             /\ Forall2 near l (LaserFan3D.returns decoded))
       /\ LaserFan3D.reflectivities decoded
          ≡ₚ LaserFan3D.reflectivities laser_fan
       /\ (forall (i : nat) (q : Vector3f.t),
             LaserFan3D.returns decoded !! i = Some q ->
             exists (j : Z) (p : Vector3f.t),
               new_to_old !! i = Some j
               /\ vector_at (LaserFan3D.returns laser_fan) j = Some p
               /\ near p q
               /\ LaserFan3D.reflectivities decoded !! i
                  = vector_at (LaserFan3D.reflectivities laser_fan) j).
Proof.
  unfold reorders_within_tolerance.
  destruct (CompressAndReturnOrder (LaserFan3D.returns laser_fan))
    as [compressed new_to_old] eqn:Hc.
  intros [Hperm Hnear] Hrefl.
  destruct laser_fan as [origin returns misses reflectivities].
  simpl in *.
  (* the reordering reads in bounds *)
  assert (Hsome : is_Some (ReorderReflectivities reflectivities new_to_old)).
  { destruct Hrefl as [->|Hlen]; [now eexists|].
    now apply (ReorderReflectivities_permutation _ _ (length returns)). }
  destruct Hsome as [reordered Hreordered].
  eexists. split; [eapply Compress_Some; simpl; eassumption|].
  simpl.
  destruct (ReorderReflectivities_Some _ _ _ Hreordered) as [Hlen Hread].
  unfold uint8 in *.
  (* the returns the decoded points come from, in decoded order *)
  assert (Hfrom : exists l : PointCloud,
             Forall2 (fun p j => vector_at returns j = Some p) l new_to_old
             /\ Forall2 near l (CompressedPointCloud_Decompress compressed)).
  { clear - Hnear.
    induction Hnear as [|q j qs order (p & Hp & Hpq) Hnear (l & Hl & Hlq)].
    - exists []. split; constructor.
    - exists (p :: l). split; constructor; assumption. }
  destruct Hfrom as (l & Hl & Hlq).
  split; [reflexivity|]. split; [|split].
  - exists l. split; [|assumption].
    destruct returns as [|p0 returns'].
    + apply Permutation_nil_r in Hperm. subst new_to_old.
      apply Forall2_nil_inv_r in Hl. now subst l.
    + now apply (reads_Permutation p0 _ _ new_to_old).
  - destruct Hrefl as [->|Hsame].
    + simpl in Hlen. now destruct reordered.
    + pose proof Hperm as Hperm'. rewrite <- Hsame in Hperm'.
      apply (reads_Permutation 0 _ _ new_to_old); [|exact Hperm'].
      apply Forall2_same_length_lookup_2.
      * apply Permutation_length in Hperm.
        rewrite length_seqZ in Hperm. lia.
      * intros i r j Hr Hj.
        destruct (Hread i) as (j' & Hj' & Hrj).
        { apply lookup_lt_Some in Hr. lia. }
        rewrite Hj in Hj'. injection Hj' as <-. now rewrite <- Hrj.
  - intros i q Hq.
    destruct (Forall2_lookup_r _ _ _ _ _ Hlq Hq) as (p & Hp & Hpq).
    destruct (Forall2_lookup_l _ _ _ _ _ Hl Hp) as (j & Hj & Hpj).
    exists j, p. repeat split; try assumption.
    destruct Hrefl as [->|Hsame].
    + simpl in Hlen. destruct reordered; [|discriminate].
      unfold vector_at. destruct (j <? 0); now rewrite ?lookup_nil.
    + destruct (Hread i) as (j' & Hj' & Hrj).
      { apply lookup_lt_Some in Hj. apply Permutation_length in Hperm.
        rewrite length_seqZ in Hperm. lia. }
      rewrite Hj in Hj'. now injection Hj' as <-.
Qed.

End Facts.

Import Float32 grid examples.

(** The hypotheses of [Decompress_Compress_round_trip] hold of the fan
    [two_returns] under the grid encoding, which swaps its two returns. *)
Lemma Decompress_Compress_round_trip_witness :
  exists compressed_laser_fan : CompressedLaserFan3D.t,
    Compress two_returns = Some compressed_laser_fan
    /\ LaserFan3D.origin (Decompress compressed_laser_fan)
       = LaserFan3D.origin two_returns
    /\ LaserFan3D.reflectivities (Decompress compressed_laser_fan)
       ≡ₚ LaserFan3D.reflectivities two_returns.
Proof.
  destruct (@Decompress_Compress_round_trip grid.codec grid.near two_returns)
    as (c & Hc & Ho & _ & Hr & _).
  - split; [apply perm_swap|].
    repeat constructor; eexists; (split; reflexivity).
  - right. reflexivity.
  - exists c. repeat split; assumption.
Defined.

(** C1 fails as stated, twice.  The reflectivities [10; 20] of
    [two_returns] come back as [20; 10], in the order of the decoded
    returns, which is not the original one.  And not every fan can be
    compressed: on [stray_reflectivity], which has more reflectivities than
    returns, the reordering reads [new_to_old] out of bounds. *)
Lemma Decompress_Compress_not_original_order :
  LaserFan3D.reflectivities two_returns = [10; 20]
  /\ snd (CompressAndReturnOrder (LaserFan3D.returns two_returns)) = [1; 0]
  /\ Decompress <$> Compress two_returns
     = Some (LaserFan3D.Build
               (Vector3f.Build zero zero zero)
               [Vector3f.Build (of_Z 1) zero zero;
                Vector3f.Build (of_Z 5) zero zero]
               []
               [20; 10])
  /\ Compress stray_reflectivity = None
  /\ ReorderReflectivities_accesses
       (LaserFan3D.reflectivities stray_reflectivity)
       (snd (CompressAndReturnOrder (LaserFan3D.returns stray_reflectivity)))
     = [read_new_to_old 0].
Proof. repeat split. Qed.

End Compress_facts.

(** ** The odometry state tracker *)

Module OdometryStateTracker_facts.

Import kalman_filter.

Lemma drop_S_cons {A : Type} (l kept : list A) (n : nat) (oldest : A) :
  drop n l = oldest :: kept -> drop (S n) l = kept.
Proof.
  intros Hdrop. replace (S n) with (n + 1)%nat by lia.
  now rewrite <- drop_drop, Hdrop.
Qed.

(** An [int] that is at least 1 is the same number as a [size_t]. *)
Lemma size_t_of_int_window (window_size : Z) :
  1 <= window_size < 2 ^ 31 -> size_t_of_int window_size = window_size.
Proof. intros Hk. unfold size_t_of_int. apply Z.mod_small. lia. Qed.

Lemma add_all_snoc (tracker : OdometryStateTracker)
    (added : list OdometryState) (s : OdometryState) :
  add_all tracker (added ++ [s]) = AddOdometryState (add_all tracker added) s.
Proof. unfold add_all. now rewrite fold_left_app. Qed.

Lemma add_all_window_size (tracker : OdometryStateTracker)
    (added : list OdometryState) :
  window_size_ (add_all tracker added) = window_size_ tracker.
Proof.
  induction added as [|s added IH] using rev_ind; [reflexivity|].
  now rewrite add_all_snoc.
Qed.

(** The states a tracker holds: the last [window_size] of those added. *)
Lemma add_all_states (window_size : Z) (added : list OdometryState) :
  1 <= window_size < 2 ^ 31 ->
  odometry_states_ (add_all (new window_size) added)
  = drop (length added - Z.to_nat window_size) added.
Proof.
  intros Hk.
  induction added as [|s added IH] using rev_ind; [reflexivity|].
  rewrite add_all_snoc. unfold AddOdometryState; simpl.
  rewrite add_all_window_size, IH. simpl.
  rewrite size_t_of_int_window by assumption.
  rewrite !length_app, length_drop. simpl.
  destruct (Z.ltb_spec window_size
              (Z.of_nat (length added
                         - (length added - Z.to_nat window_size) + 1)))
    as [Hfull|Hroom].
  - assert (Hn : (Z.to_nat window_size <= length added)%nat) by lia.
    replace (length added + 1 - Z.to_nat window_size)%nat
      with (S (length added - Z.to_nat window_size)) by lia.
    rewrite (drop_app_le added [s]) by lia.
    destruct (drop (length added - Z.to_nat window_size) added)
      as [|oldest kept] eqn:Hdrop.
    + apply (f_equal length) in Hdrop. rewrite length_drop in Hdrop.
      simpl in Hdrop. lia.
    + simpl. now rewrite (drop_S_cons _ _ _ _ Hdrop).
  - replace (length added - Z.to_nat window_size)%nat with 0%nat by lia.
    replace (length added + 1 - Z.to_nat window_size)%nat with 0%nat by lia.
    reflexivity.
Qed.

(** C4: a tracker of window size [k >= 1] never holds more than [k] states;
    it holds the states added, without the first [n - k] of them when [n] is
    their number, so after [n >= k] additions exactly the last [k], in the
    order in which they were added; and once it holds [k], adding a state
    evicts the oldest one. *)
Theorem window_bound (k : Z) (added : list OdometryState) :
  1 <= k < 2 ^ 31 ->
  let tracker := add_all (new k) added in
  Z.of_nat (length (odometry_states tracker)) <= k
  /\ odometry_states tracker = drop (length added - Z.to_nat k) added
  /\ (k <= Z.of_nat (length added) ->
      Z.of_nat (length (odometry_states tracker)) = k
      /\ forall s : OdometryState,
           odometry_states (AddOdometryState tracker s)
           = tail (odometry_states tracker) ++ [s]).
Proof.
  intros Hk tracker. unfold odometry_states.
  assert (Hstates : odometry_states_ tracker
                    = drop (length added - Z.to_nat k) added)
    by now apply add_all_states.
  rewrite Hstates, length_drop.
  split; [lia|]. split; [reflexivity|]. intros Hn. split; [lia|].
  intros s.
  change (AddOdometryState tracker s)
    with (AddOdometryState (add_all (new k) added) s).
  rewrite <- add_all_snoc, add_all_states by assumption.
  rewrite length_app. simpl.
  replace (length added + 1 - Z.to_nat k)%nat
    with (S (length added - Z.to_nat k)) by lia.
  rewrite (drop_app_le added [s]) by lia.
  destruct (drop (length added - Z.to_nat k) added)
    as [|oldest kept] eqn:Hdrop.
  - apply (f_equal length) in Hdrop. rewrite length_drop in Hdrop.
    simpl in Hdrop. lia.
  - simpl. now rewrite (drop_S_cons _ _ _ _ Hdrop).
Qed.

(** C7: a fresh tracker is empty and its newest state is the default one,
    whose time is the minimum and whose poses are the identity; after one
    state has been added the tracker is not empty and that state is the
    newest; and whenever states have been added, the newest is the one
    added last. *)
Theorem newest_is_last_added (window_size : Z) :
  1 <= window_size < 2 ^ 31 ->
  empty (new window_size) = true
  /\ newest (new window_size) = OdometryState_default
  /\ time OdometryState_default = Time_min
  /\ odometer_pose OdometryState_default = Rigid3d.Identity
  /\ state_pose OdometryState_default = Rigid3d.Identity
  /\ (forall s : OdometryState,
        empty (AddOdometryState (new window_size) s) = false
        /\ newest (AddOdometryState (new window_size) s) = s)
  /\ (forall (added : list OdometryState) (s : OdometryState),
        empty (add_all (new window_size) (added ++ [s])) = false
        /\ newest (add_all (new window_size) (added ++ [s])) = s).
Proof.
  intros Hk.
  assert (Hlast : forall (added : list OdometryState) (s : OdometryState),
             empty (add_all (new window_size) (added ++ [s])) = false
             /\ newest (add_all (new window_size) (added ++ [s])) = s).
  { intros added s. unfold empty, newest.
    rewrite add_all_states by assumption.
    rewrite length_app. simpl.
    rewrite (drop_app_le added [s]) by lia.
    rewrite last_snoc. split; [|reflexivity].
    now destruct (drop (length added + 1 - Z.to_nat window_size) added). }
  repeat split; try apply (Hlast [] s); try apply Hlast.
Qed.

Import examples.

(** The hypothesis of [window_bound] holds of a window of two states; of
    three states added, the last two are kept. *)
Lemma window_bound_witness :
  odometry_states (add_all (new 2) [state_at 1; state_at 2; state_at 3])
  = [state_at 2; state_at 3].
Proof.
  apply (window_bound 2 [state_at 1; state_at 2; state_at 3]). lia.
Defined.

(** The hypothesis of [newest_is_last_added] holds of a window of two
    states. *)
Lemma newest_is_last_added_witness :
  newest (add_all (new 2) [state_at 1; state_at 2; state_at 3]) = state_at 3.
Proof.
  destruct (newest_is_last_added 2) as (_ & _ & _ & _ & _ & _ & Hlast);
    [lia|].
  apply (Hlast [state_at 1; state_at 2] (state_at 3)).
Defined.

End OdometryStateTracker_facts.

(** ** The grid encoding *)

Module grid_facts.

Import Float32 sensor grid.

(** *** Conversion between integers and single precision numbers *)

Lemma digits2_pos_iter_xO (m q : positive) :
  Z.pos (digits2_pos (Pos.iter xO m q)) = Z.pos (digits2_pos m) + Z.pos q.
Proof.
  induction q as [|q IH] using Pos.peano_ind.
  - simpl. lia.
  - rewrite Pos.iter_succ. simpl. lia.
Qed.

Lemma pos_iter_xO (m q : positive) :
  Z.pos (Pos.iter xO m q) = Z.pos m * 2 ^ Z.pos q.
Proof.
  induction q as [|q IH] using Pos.peano_ind.
  - simpl. lia.
  - rewrite Pos.iter_succ, Pos2Z.inj_succ, Z.pow_succ_r by lia.
    rewrite Pos2Z.inj_xO, IH. lia.
Qed.

Lemma iter_pos_shr_1 (m q : positive) :
  SpecFloat.iter_pos shr_1 q (Build_shr_record (Z.pos (Pos.iter xO m q)) false false)
  = Build_shr_record (Z.pos m) false false.
Proof.
  assert (Hiter : forall (A : Type) (f : A -> A) (p : positive) (x : A),
             SpecFloat.iter_pos f p x = Pos.iter f x p).
  { intros A f p. induction p as [p IH|p IH|]; intros x; simpl.
    - rewrite !IH. now rewrite <- !Pos.iter_swap.
    - now rewrite !IH.
    - reflexivity. }
  rewrite Hiter. revert m.
  induction q as [|q IH] using Pos.peano_ind; intros m.
  - reflexivity.
  - rewrite (Pos.iter_succ_r q _ shr_1), (Pos.iter_succ q _ xO). simpl. apply IH.
Qed.

(** A mantissa of 24 bits with an exponent in range is left as it is. *)
Lemma binary_round_aux_canonical (s : bool) (m : positive) (e : Z) :
  Z.pos (digits2_pos m) = 24 -> -149 <= e <= 104 ->
  binary_round_aux prec emax s (Z.pos m) e loc_Exact = S754_finite s m e.
Proof.
  intros Hd He. unfold binary_round_aux.
  assert (Hshr : shr_fexp prec emax (Z.pos m) e loc_Exact
                 = (Build_shr_record (Z.pos m) false false, e)).
  { unfold shr_fexp, shr, fexp, emin, prec, emax. simpl Zdigits2. rewrite Hd.
    replace (Z.max (24 + e - 24) (3 - 128 - 24) - e) with 0 by lia.
    reflexivity. }
  rewrite Hshr. simpl. rewrite Hshr. simpl.
  destruct (Z.leb_spec e (emax - prec)) as [_|Hbad]; [reflexivity|].
  unfold emax, prec in Hbad. lia.
Qed.

Lemma digits2_pos_bounds (m : positive) :
  2 ^ (Z.pos (digits2_pos m) - 1) <= Z.pos m < 2 ^ Z.pos (digits2_pos m).
Proof.
  induction m as [m IH|m IH|]; simpl digits2_pos.
  - rewrite Pos2Z.inj_succ, Z.pow_succ_r by lia.
    replace (Z.succ (Z.pos (digits2_pos m)) - 1)
      with (Z.succ (Z.pos (digits2_pos m) - 1)) by lia.
    rewrite Z.pow_succ_r by lia. lia.
  - rewrite Pos2Z.inj_succ, Z.pow_succ_r by lia.
    replace (Z.succ (Z.pos (digits2_pos m)) - 1)
      with (Z.succ (Z.pos (digits2_pos m) - 1)) by lia.
    rewrite Z.pow_succ_r by lia. lia.
  - simpl. lia.
Qed.

Lemma digits2_pos_le (m : positive) (d : Z) :
  0 <= d -> Z.pos m < 2 ^ d -> Z.pos (digits2_pos m) <= d.
Proof.
  intros Hd Hm. destruct (Z.le_gt_cases (Z.pos (digits2_pos m)) d) as [|Hgt];
    [assumption|].
  pose proof (digits2_pos_bounds m) as [Hlow _].
  assert (2 ^ d <= 2 ^ (Z.pos (digits2_pos m) - 1))
    by (apply Z.pow_le_mono_r; lia).
  lia.
Qed.

(** An integer of at most 24 bits is converted exactly. *)
Lemma RoundToInt_binary_round_small (s : bool) (c : positive) :
  Z.pos (digits2_pos c) <= 24 ->
  RoundToInt (binary_round prec emax s c 0)
  = if s then - Z.pos c else Z.pos c.
Proof.
  intros Hd. unfold binary_round.
  assert (Hfexp : fexp prec emax (Z.pos (digits2_pos c) + 0)
                  = Z.pos (digits2_pos c) - 24)
    by (unfold fexp, emin, prec, emax; lia).
  rewrite Hfexp. unfold shl_align.
  destruct (Z.pos (digits2_pos c) - 24 - 0) as [|q|q] eqn:Hq; try lia.
  - rewrite binary_round_aux_canonical by lia.
    simpl. now rewrite Z.mul_1_r.
  - rewrite binary_round_aux_canonical;
      [|rewrite digits2_pos_iter_xO; lia|lia].
    assert (He : Z.pos (digits2_pos c) - 24 = - Z.pos q) by lia.
    rewrite He. simpl RoundToInt.
    replace (- - Z.pos q) with (Z.pos q) by lia.
    rewrite pos_iter_xO.
    assert (Hdiv : (Z.pos c * 2 ^ Z.pos q + 2 ^ (Z.pos q - 1)) / 2 ^ Z.pos q
                   = Z.pos c).
    { assert (Hpow : 2 ^ Z.pos q = 2 * 2 ^ (Z.pos q - 1)).
      { rewrite <- Z.pow_succ_r by lia. f_equal. lia. }
      assert (Hpos : 0 < 2 ^ (Z.pos q - 1)) by (apply Z.pow_pos_nonneg; lia).
      rewrite Z.div_add_l by lia.
      rewrite Z.div_small by lia. lia. }
    rewrite Hdiv. reflexivity.
Qed.

(** A canonical float that is an integer is the conversion of that
    integer. *)
Lemma binary_round_canonical (s : bool) (m c : positive) (e : Z) :
  Z.pos (digits2_pos m) = 24 -> 0 <= e <= 104 ->
  Z.pos c = Z.pos m * 2 ^ e ->
  binary_round prec emax s c 0 = S754_finite s m e.
Proof.
  intros Hd He Hc.
  destruct e as [|q|q]; try lia.
  - assert (c = m) as -> by lia.
    unfold binary_round, shl_align.
    assert (Hfexp : fexp prec emax (Z.pos (digits2_pos m) + 0) = 0)
      by (unfold fexp, emin, prec, emax; lia).
    rewrite Hfexp. simpl. apply binary_round_aux_canonical; lia.
  - assert (c = Pos.iter xO m q) as ->
      by (apply Pos2Z.inj; rewrite pos_iter_xO; exact Hc).
    unfold binary_round, shl_align.
    assert (Hfexp : fexp prec emax
                      (Z.pos (digits2_pos (Pos.iter xO m q)) + 0) = Z.pos q)
      by (rewrite digits2_pos_iter_xO; unfold fexp, emin, prec, emax; lia).
    rewrite Hfexp, Z.sub_0_r. cbv iota beta.
    unfold binary_round_aux.
    assert (Hshr : shr_fexp prec emax (Z.pos (Pos.iter xO m q)) 0 loc_Exact
                   = (Build_shr_record (Z.pos m) false false, Z.pos q)).
    { unfold shr_fexp. simpl Zdigits2. rewrite Z.sub_0_r, Hfexp.
      unfold shr. simpl shr_record_of_loc. now rewrite iter_pos_shr_1. }
    rewrite Hshr. simpl loc_of_shr_record. simpl round_nearest_even.
    simpl shr_m.
    assert (Hshr' : shr_fexp prec emax (Z.pos m) (Z.pos q) loc_Exact
                    = (Build_shr_record (Z.pos m) false false, Z.pos q)).
    { unfold shr_fexp, shr, fexp, emin, prec, emax. simpl Zdigits2.
      rewrite Hd.
      replace (Z.max (24 + Z.pos q - 24) (3 - 128 - 24) - Z.pos q)
        with 0 by lia.
      reflexivity. }
    rewrite Hshr'. simpl shr_m.
    destruct (Z.leb_spec (Z.pos q) (emax - prec)) as [_|Hbad]; [reflexivity|].
    unfold emax, prec in Hbad. lia.
Qed.

Lemma RoundToInt_of_Z_small (n : Z) :
  - 2 ^ 24 < n < 2 ^ 24 -> RoundToInt (of_Z n) = n.
Proof.
  intros Hn. destruct n as [|c|c]; [reflexivity| |];
    unfold of_Z, binary_normalize;
    rewrite RoundToInt_binary_round_small; try reflexivity;
    apply digits2_pos_le; lia.
Qed.

(** Rounding the decoded coordinate of a cell gives the cell again. *)
Lemma RoundToInt_stable (p : spec_float) :
  valid_binary prec emax p = true ->
  RoundToInt (of_Z (RoundToInt p)) = RoundToInt p.
Proof.
  destruct p as [s|s| |s m e]; try reflexivity.
  unfold valid_binary, bounded, canonical_mantissa. intros Hvalid.
  apply andb_prop in Hvalid as [Hcanon He].
  apply Z.eqb_eq in Hcanon. apply Z.leb_le in He.
  unfold fexp, emin, prec, emax in Hcanon, He.
  unfold RoundToInt at 2 3.
  destruct (Z.leb_spec 0 e) as [Hpos|Hneg].
  - (* an integer: it is converted back to the same float *)
    assert (Hd : Z.pos (digits2_pos m) = 24) by lia.
    assert (Hc : exists c : positive, Z.pos c = Z.pos m * 2 ^ e).
    { assert (0 < Z.pos m * 2 ^ e) by (apply Z.mul_pos_pos;
        [lia | apply Z.pow_pos_nonneg; lia]).
      destruct (Z.pos m * 2 ^ e) as [|c|c]; try lia. now exists c. }
    destruct Hc as [c Hc]. rewrite <- Hc.
    assert (Hback : of_Z (if s then - Z.pos c else Z.pos c)
                    = S754_finite s m e).
    { unfold of_Z, binary_normalize.
      destruct s; simpl; apply (binary_round_canonical _ m c e); lia. }
    rewrite Hback. simpl. destruct (Z.leb_spec 0 e); [|lia].
    now rewrite Hc.
  - (* a fraction: it rounds to an integer of at most 24 bits *)
    apply RoundToInt_of_Z_small.
    assert (Hm : Z.pos m < 2 ^ 24).
    { pose proof (digits2_pos_bounds m) as [_ Hup].
      assert (2 ^ Z.pos (digits2_pos m) <= 2 ^ 24)
        by (apply Z.pow_le_mono_r; lia).
      lia. }
    assert (Hpow : 2 ^ (- e) = 2 * 2 ^ (- e - 1)).
    { rewrite <- Z.pow_succ_r by lia. f_equal. lia. }
    assert (Hhalf : 0 < 2 ^ (- e - 1)) by (apply Z.pow_pos_nonneg; lia).
    assert (Hq : 0 <= (Z.pos m + 2 ^ (- e - 1)) / 2 ^ (- e) < 2 ^ 24).
    { split.
      - apply Z.div_pos; lia.
      - apply Z.div_lt_upper_bound; [lia|]. nia. }
    destruct s; lia.
Qed.

Lemma cell_of_stable (p : Vector3f.t) :
  Vector3f.valid p -> cell_of (point_of (cell_of p)) = cell_of p.
Proof.
  intros (Hx & Hy & Hz). unfold cell_of, point_of. simpl.
  now rewrite !RoundToInt_stable.
Qed.

(** *** The sort *)

Lemma cell_le_total (c d : cell) : cell_le c d = false -> cell_le d c = true.
Proof.
  destruct c as [[cx cy] cz], d as [[dx dy] dz]. unfold cell_le.
  intros Hcd.
  destruct (Z.ltb_spec cx dx), (Z.eqb_spec cx dx), (Z.ltb_spec cy dy),
    (Z.eqb_spec cy dy), (Z.leb_spec cz dz); simpl in Hcd; try discriminate;
    destruct (Z.ltb_spec dx cx), (Z.eqb_spec dx cx), (Z.ltb_spec dy cy),
      (Z.eqb_spec dy cy), (Z.leb_spec dz cz); simpl; try reflexivity; lia.
Qed.

Lemma insert_cell_Permutation (c : cell * Z) (sorted : list (cell * Z)) :
  insert_cell c sorted ≡ₚ c :: sorted.
Proof.
  induction sorted as [|d sorted IH]; simpl; [reflexivity|].
  destruct (cell_le (fst c) (fst d)); [reflexivity|].
  rewrite IH. apply perm_swap.
Qed.

Lemma sort_cells_Permutation (cells : list (cell * Z)) :
  sort_cells cells ≡ₚ cells.
Proof.
  induction cells as [|c cells IH]; simpl; [reflexivity|].
  now rewrite insert_cell_Permutation, IH.
Qed.

Lemma insert_cell_Sorted (c : cell * Z) (sorted : list (cell * Z)) :
  Sorted cell_order sorted -> Sorted cell_order (insert_cell c sorted).
Proof.
  induction 1 as [|d sorted Hsorted IH Hd]; simpl.
  - repeat constructor.
  - destruct (cell_le (fst c) (fst d)) eqn:Hcd.
    + repeat constructor; assumption.
    + constructor; [assumption|].
      destruct Hd as [|e sorted Hde]; simpl.
      * constructor. now apply cell_le_total.
      * destruct (cell_le (fst c) (fst e)); constructor;
          [now apply cell_le_total | assumption].
Qed.

Lemma sort_cells_Sorted (cells : list (cell * Z)) :
  Sorted cell_order (sort_cells cells).
Proof.
  induction cells as [|c cells IH]; simpl; [constructor|].
  now apply insert_cell_Sorted.
Qed.

(** Cells that are in order already stay where they are. *)
Lemma sort_cells_fixed (cells : list (cell * Z)) :
  Sorted cell_order cells -> sort_cells cells = cells.
Proof.
  induction 1 as [|c cells Hsorted IH Hc]; simpl; [reflexivity|].
  rewrite IH. destruct Hc as [|d cells Hcd]; simpl; [reflexivity|].
  unfold cell_order in Hcd. now rewrite Hcd.
Qed.

(** Being in order is a matter of the cells, not of the indices beside
    them. *)
Lemma Sorted_cells (l k : list (cell * Z)) :
  fst <$> l = fst <$> k -> Sorted cell_order l -> Sorted cell_order k.
Proof.
  intros Hkeys Hsorted. revert k Hkeys.
  induction Hsorted as [|c l Hsorted IH Hc]; intros [|d k] Hkeys;
    try discriminate; [constructor|].
  rewrite !fmap_cons in Hkeys. injection Hkeys as Hcd Hkeys.
  constructor; [now apply IH|].
  destruct Hc as [|e l Hce]; destruct k as [|e' k]; try discriminate;
    constructor.
  rewrite !fmap_cons in Hkeys. injection Hkeys as Hee _.
  unfold cell_order in *. now rewrite <- Hcd, <- Hee.
Qed.

Lemma imap_cells (points : PointCloud) :
  fst <$> imap (fun i p => (cell_of p, Z.of_nat i)) points
  = cell_of <$> points.
Proof. rewrite fmap_imap. apply imap_const. Qed.

Lemma imap_indices {A : Type} (f : A -> cell) (l : list A) :
  snd <$> imap (fun i a => (f a, Z.of_nat i)) l
  = seqZ 0 (Z.of_nat (length l)).
Proof.
  apply list_eq. intros i.
  rewrite list_lookup_fmap, list_lookup_imap.
  destruct (l !! i) as [a|] eqn:Ha; simpl.
  - apply lookup_lt_Some in Ha.
    now rewrite lookup_seqZ_lt, Z.add_0_l by lia.
  - apply lookup_ge_None in Ha. now rewrite lookup_seqZ_ge by lia.
Qed.


(** *** Encoding what was decoded *)

#[local] Arguments compress_and_return_order : simpl never.

Lemma sort_cells_length (cells : list (cell * Z)) :
  length (sort_cells cells) = length cells.
Proof. apply Permutation_length, sort_cells_Permutation. Qed.

(** The cells of the encoding are cells of the points. *)
Lemma compress_cells (points : PointCloud) (c : cell) :
  c ∈ fst (compress_and_return_order points) ->
  exists p : Vector3f.t, p ∈ points /\ c = cell_of p.
Proof.
  unfold compress_and_return_order. simpl.
  rewrite sort_cells_Permutation, imap_cells.
  intros (p & Hc & Hp)%list_elem_of_fmap. eauto.
Qed.

(** The cells of the points that the encoding decodes to are the cells of
    the encoding. *)
Lemma decoded_cells (points : PointCloud) :
  Forall Vector3f.valid points ->
  cell_of <$> (point_of <$> fst (compress_and_return_order points))
  = fst (compress_and_return_order points).
Proof.
  intros Hvalid.
  rewrite <- list_fmap_compose.
  rewrite <- (list_fmap_id (fst (compress_and_return_order points))) at 2.
  apply Forall_fmap_ext, Forall_forall. intros c Hc.
  apply compress_cells in Hc as (p & Hp & ->). simpl.
  apply cell_of_stable.
  rewrite Forall_forall in Hvalid. now apply Hvalid.
Qed.

(** So the decoded points are in compressed order. *)
Lemma decoded_in_compressed_order (points : PointCloud) :
  Forall Vector3f.valid points ->
  in_compressed_order (point_of <$> fst (compress_and_return_order points)).
Proof.
  intros Hvalid. unfold in_compressed_order.
  apply (Sorted_cells
           (sort_cells (imap (fun i p => (cell_of p, Z.of_nat i)) points)));
    [|apply sort_cells_Sorted].
  now rewrite imap_cells, decoded_cells.
Qed.

(** Points in compressed order are encoded in the order in which they are:
    the order recorded is the identity. *)
Lemma compress_in_compressed_order (points : PointCloud) :
  in_compressed_order points ->
  compress_and_return_order points
  = (cell_of <$> points, seqZ 0 (Z.of_nat (length points))).
Proof.
  intros Hsorted. unfold compress_and_return_order.
  now rewrite sort_cells_fixed, imap_cells, imap_indices.
Qed.

(** The points that the encoding decodes to are encoded to the same cells,
    in the same order. *)
Lemma compress_decoded (points : PointCloud) :
  Forall Vector3f.valid points ->
  compress_and_return_order
    (point_of <$> fst (compress_and_return_order points))
  = (fst (compress_and_return_order points),
     seqZ 0 (Z.of_nat (length points))).
Proof.
  intros Hvalid.
  rewrite compress_in_compressed_order
    by now apply decoded_in_compressed_order.
  rewrite decoded_cells by assumption. f_equal.
  unfold compress_and_return_order. simpl.
  now rewrite !length_fmap, sort_cells_length, length_imap.
Qed.

(** [Compress] with the grid encoding. *)
Lemma grid_Compress (laser_fan : LaserFan3D.t) (cells : list cell)
    (new_to_old : list Z) :
  compress_and_return_order (LaserFan3D.returns laser_fan)
  = (cells, new_to_old) ->
  @Compress grid.codec laser_fan
  = reordered ←
      ReorderReflectivities (LaserFan3D.reflectivities laser_fan) new_to_old;
    Some (@CompressedLaserFan3D.Build grid.codec
            (LaserFan3D.origin laser_fan)
            cells
            (fst (compress_and_return_order (LaserFan3D.misses laser_fan)))
            reordered).
Proof.
  intros Hcells. unfold Compress.
  change (@CompressAndReturnOrder grid.codec) with compress_and_return_order.
  now rewrite Hcells.
Qed.

(** Reordering by the identity changes nothing. *)
Lemma ReorderReflectivities_identity (reflectivities : list uint8) (n : nat) :
  (length reflectivities <= n)%nat ->
  ReorderReflectivities reflectivities (seqZ 0 (Z.of_nat n))
  = Some reflectivities.
Proof.
  intros Hn.
  assert (Hsome : is_Some (ReorderReflectivities reflectivities
                             (seqZ 0 (Z.of_nat n)))).
  { apply ReorderReflectivities_facts.ReorderReflectivities_is_Some.
    rewrite length_seqZ. split; [lia|].
    intros i j Hi Hj. apply lookup_seqZ in Hj. lia. }
  destruct Hsome as [res Hres]. rewrite Hres. f_equal.
  apply ReorderReflectivities_facts.ReorderReflectivities_Some in Hres
    as [Hlen Hread].
  apply list_eq. intros k.
  destruct (decide (k < length reflectivities)%nat) as [Hk|Hk].
  - destruct (Hread k Hk) as (j & Hj & ->).
    apply lookup_seqZ in Hj as [-> _].
    now rewrite Z.add_0_l, ReorderReflectivities_facts.vector_at_of_nat.
  - rewrite !lookup_ge_None_2 by lia. reflexivity.
Qed.

(** C8, for the grid encoding: take any 3D fan whose returns have single
    precision coordinates and which [Compress] accepts.  What [Decompress]
    gives back has its returns in compressed order; compressing it succeeds,
    and decoding again yields the very same returns, so the same point set,
    as the first decode, and the same reflectivities.  The compression of
    returns that are in compressed order already reorders nothing: its
    [new_to_old] is the identity. *)
Theorem Compress_Decompress_idempotent (laser_fan : LaserFan3D.t)
    (compressed : @CompressedLaserFan3D.t grid.codec) :
  Forall Vector3f.valid (LaserFan3D.returns laser_fan) ->
  @Compress grid.codec laser_fan = Some compressed ->
  (exists again : @CompressedLaserFan3D.t grid.codec,
     @Compress grid.codec (Decompress compressed) = Some again
     /\ LaserFan3D.returns (Decompress again)
        = LaserFan3D.returns (Decompress compressed)
     /\ LaserFan3D.reflectivities (Decompress again)
        = LaserFan3D.reflectivities (Decompress compressed))
  /\ in_compressed_order (LaserFan3D.returns (Decompress compressed))
  /\ (forall points : PointCloud,
        in_compressed_order points ->
        snd (@CompressAndReturnOrder grid.codec points)
        = seqZ 0 (Z.of_nat (length points))).
Proof.
  intros Hvalid Hcompressed.
  destruct (compress_and_return_order (LaserFan3D.returns laser_fan))
    as [cells new_to_old] eqn:Hcells.
  pose proof (compress_decoded _ Hvalid) as Hdecoded.
  pose proof (decoded_in_compressed_order _ Hvalid) as Hsorted.
  rewrite Hcells in Hdecoded, Hsorted. simpl in Hdecoded, Hsorted.
  rewrite (grid_Compress _ _ _ Hcells) in Hcompressed.
  destruct (ReorderReflectivities (LaserFan3D.reflectivities laser_fan)
              new_to_old) as [reordered|] eqn:Hreordered; [|discriminate].
  simpl in Hcompressed. injection Hcompressed as <-.
  assert (Horder : length new_to_old
                   = length (LaserFan3D.returns laser_fan)).
  { unfold compress_and_return_order in Hcells.
    injection Hcells as <- <-.
    now rewrite !length_fmap, sort_cells_length, length_imap. }
  (* no more reflectivities than returns *)
  assert (Hlen : (length reordered
                  <= length (LaserFan3D.returns laser_fan))%nat).
  { pose proof Hreordered as Hsome.
    apply ReorderReflectivities_facts.ReorderReflectivities_Some
      in Hreordered as [-> _].
    apply mk_is_Some,
      ReorderReflectivities_facts.ReorderReflectivities_is_Some in Hsome
      as [Hle _].
    now rewrite Horder in Hle. }
  split; [|split].
  - unfold Decompress at 1. simpl.
    erewrite grid_Compress by (simpl; exact Hdecoded). simpl.
    rewrite ReorderReflectivities_identity by assumption. simpl.
    eexists. split; [reflexivity|]. split; reflexivity.
  - exact Hsorted.
  - intros points Hpoints.
    change (@CompressAndReturnOrder grid.codec)
      with compress_and_return_order.
    now rewrite compress_in_compressed_order.
Qed.

(** The grid encoding does what the specification says of the encoding of
    the returns: the order that it records is a permutation of the indices
    of the points, and decoded point [i] is near the point [new_to_old[i]]
    that it comes from. *)
Lemma grid_reorders_within_tolerance (points : PointCloud) :
  Forall Vector3f.valid points ->
  @reorders_within_tolerance grid.codec near points.
Proof.
  intros Hvalid. unfold reorders_within_tolerance. simpl. split.
  - now rewrite sort_cells_Permutation, imap_indices.
  - apply Forall2_fmap, Forall2_fmap_l, Forall_Forall2_diag, Forall_forall.
    intros [c j].
    rewrite sort_cells_Permutation.
    intros (i & p & [= -> ->] & Hp)%elem_of_lookup_imap. simpl.
    exists p. split.
    + now rewrite ReorderReflectivities_facts.vector_at_of_nat.
    + unfold near. symmetry. apply cell_of_stable.
      rewrite Forall_forall in Hvalid.
      apply Hvalid. now apply list_elem_of_lookup_2 in Hp.
Qed.

Import examples.

(** The hypotheses of [Compress_Decompress_idempotent] hold of the fan
    [two_returns]. *)
Lemma Compress_Decompress_idempotent_witness :
  exists again : @CompressedLaserFan3D.t grid.codec,
    @Compress grid.codec
      (LaserFan3D.Build
         (Vector3f.Build zero zero zero)
         [Vector3f.Build (of_Z 1) zero zero; Vector3f.Build (of_Z 5) zero zero]
         [] [20; 10])
    = Some again
    /\ LaserFan3D.returns (Decompress again)
       = [Vector3f.Build (of_Z 1) zero zero;
          Vector3f.Build (of_Z 5) zero zero].
Proof.
  destruct (Compress_Decompress_idempotent two_returns
              (@CompressedLaserFan3D.Build grid.codec
                 (Vector3f.Build zero zero zero)
                 [(1, 0, 0); (5, 0, 0)] [] [20; 10]))
    as ((again & Hagain & Hreturns & _) & _).
  - repeat constructor.
  - reflexivity.
  - exists again. split; assumption.
Defined.

End grid_facts.

(** * Part III: further properties of laser.cc *)

(** ** The order of the floats *)

Module Float32_order_facts.

Import Float32 Float32_order.

Lemma rank_is_Some (a : float) : isnan a = false -> is_Some (rank a).
Proof. destruct a; simpl; intros Ha; try discriminate; eauto. Qed.

(** [a <= b] holds exactly when the ranks of [a] and [b] are in order. *)
Lemma le_rank (a b : float) :
  le a b = true
  <-> exists ra rb : Z * Z * Z,
        rank a = Some ra /\ rank b = Some rb /\ rank_le ra rb.
Proof.
  assert (Hcont : forall m n : positive,
             PosDef.Pos.compare_cont Eq m n = (Z.pos m ?= Z.pos n))
    by reflexivity.
  unfold le, SFleb.
  destruct a as [sa|sa| |sa ma ea], b as [sb|sb| |sb mb eb]; simpl;
    try (split; [discriminate | intros (ra & rb & Ha & Hb & _); discriminate]);
    rewrite ?Hcont;
    repeat match goal with s : bool |- _ => destruct s end;
    try destruct (Z.compare_spec ea eb);
    try destruct (Z.compare_spec (Z.pos ma) (Z.pos mb));
    simpl;
    (split;
     [ intros Hcmp;
       first [ discriminate Hcmp
             | eexists _, _; split; [reflexivity|]; split; [reflexivity|];
               unfold rank_le; lia ]
     | intros (ra & rb & [= <-] & [= <-] & Hle); unfold rank_le in Hle;
       first [ reflexivity | lia ] ]).
Qed.

Lemma rank_le_trans (a b c : Z * Z * Z) :
  rank_le a b -> rank_le b c -> rank_le a c.
Proof.
  destruct a as [[a1 a2] a3], b as [[b1 b2] b3], c as [[c1 c2] c3].
  unfold rank_le. lia.
Qed.

(** [<=] is transitive. *)
Lemma le_trans (a b c : float) :
  le a b = true -> le b c = true -> le a c = true.
Proof.
  rewrite !le_rank.
  intros (ra & rb & Ha & Hb & Hab) (rb' & rc & Hb' & Hc & Hbc).
  rewrite Hb in Hb'. injection Hb' as <-.
  exists ra, rc. repeat split; try assumption.
  now apply (rank_le_trans ra rb rc).
Qed.

End Float32_order_facts.

(** ** Filtering twice *)

Module FilterLaserFanByMaxRange_composition.

Import Float32 sensor FilterLaserFanByMaxRange_facts.

Section Facts.

Variable norm : Vector3f.t -> float.

(** Filtering keeps the origin, so the test of a second filter is the test
    on the fan that was filtered first. *)
Lemma within_filtered (laser_fan : LaserFan3D.t) (r1 r2 : float)
    (p : Vector3f.t) :
  within norm (FilterLaserFanByMaxRange norm laser_fan r1) r2 p
  <-> within norm laser_fan r2 p.
Proof. now rewrite FilterLaserFanByMaxRange_filter. Qed.

(** Two filters in a row keep the returns that pass both tests. *)
Lemma filter_twice (laser_fan : LaserFan3D.t) (r1 r2 : float) :
  FilterLaserFanByMaxRange norm
    (FilterLaserFanByMaxRange norm laser_fan r1) r2
  = LaserFan3D.Build
      (LaserFan3D.origin laser_fan)
      (filter (fun p => within norm laser_fan r2 p
                        /\ within norm laser_fan r1 p)
         (LaserFan3D.returns laser_fan))
      [] [].
Proof.
  rewrite (FilterLaserFanByMaxRange_filter norm
             (FilterLaserFanByMaxRange norm laser_fan r1) r2).
  rewrite (FilterLaserFanByMaxRange_filter norm laser_fan r1). simpl.
  f_equal. rewrite list_filter_filter. apply list_filter_iff.
  intros p. unfold within. simpl. reflexivity.
Qed.

(** Filtering again with the same range changes nothing, and two filters
    can be applied in either order. *)
Theorem FilterLaserFanByMaxRange_idempotent_commutes
    (laser_fan : LaserFan3D.t) (r1 r2 : float) :
  FilterLaserFanByMaxRange norm
    (FilterLaserFanByMaxRange norm laser_fan r1) r1
  = FilterLaserFanByMaxRange norm laser_fan r1
  /\ FilterLaserFanByMaxRange norm
       (FilterLaserFanByMaxRange norm laser_fan r1) r2
     = FilterLaserFanByMaxRange norm
         (FilterLaserFanByMaxRange norm laser_fan r2) r1.
Proof.
  split.
  - rewrite filter_twice, (FilterLaserFanByMaxRange_filter norm laser_fan r1).
    f_equal. apply list_filter_iff. intros p. tauto.
  - rewrite !filter_twice. f_equal. apply list_filter_iff. intros p. tauto.
Qed.

(** When [r1 <= r2], filtering by both ranges, in either order, is filtering
    by the smaller one. *)
Theorem FilterLaserFanByMaxRange_nested (laser_fan : LaserFan3D.t)
    (r1 r2 : float) :
  le r1 r2 = true ->
  FilterLaserFanByMaxRange norm
    (FilterLaserFanByMaxRange norm laser_fan r2) r1
  = FilterLaserFanByMaxRange norm laser_fan r1
  /\ FilterLaserFanByMaxRange norm
       (FilterLaserFanByMaxRange norm laser_fan r1) r2
     = FilterLaserFanByMaxRange norm laser_fan r1.
Proof.
  intros Hle.
  assert (Hwider : forall p : Vector3f.t,
             within norm laser_fan r1 p -> within norm laser_fan r2 p).
  { intros p Hp. unfold within in *.
    now apply (Float32_order_facts.le_trans _ r1 r2). }
  split; rewrite filter_twice,
           (FilterLaserFanByMaxRange_filter norm laser_fan r1);
    f_equal; apply list_filter_iff; intros p; split; try tauto;
    intros Hp; split; auto.
Qed.

(** A range that is NaN keeps no return, and the range +infinity keeps
    every return whose distance to the origin, as computed, is a number. *)
Theorem FilterLaserFanByMaxRange_edge_ranges (laser_fan : LaserFan3D.t) :
  LaserFan3D.returns (FilterLaserFanByMaxRange norm laser_fan nan) = []
  /\ LaserFan3D.returns
       (FilterLaserFanByMaxRange norm laser_fan (S754_infinity false))
     = filter (fun p => isnan (norm (Vector3f.minus p
                                       (LaserFan3D.origin laser_fan)))
                        = false)
         (LaserFan3D.returns laser_fan).
Proof.
  rewrite !FilterLaserFanByMaxRange_filter. simpl. split.
  - induction (LaserFan3D.returns laser_fan) as [|p points IH];
      [reflexivity|].
    rewrite filter_cons, IH. unfold within.
    rewrite decide_False; [reflexivity|].
    destruct (norm (Vector3f.minus p (LaserFan3D.origin laser_fan)));
      discriminate.
  - apply list_filter_iff. intros p. unfold within.
    destruct (norm (Vector3f.minus p (LaserFan3D.origin laser_fan)))
      as [s|s| |s m e]; simpl; try destruct s; split; intros Hp;
      try reflexivity; discriminate.
Qed.

End Facts.

Import examples.

(** The hypothesis of [FilterLaserFanByMaxRange_nested] holds of the ranges
    2 and 7: of the returns of [two_returns], at the distances 5 and 1, the
    one at the distance 1 is left. *)
Lemma FilterLaserFanByMaxRange_nested_witness :
  FilterLaserFanByMaxRange norm_on_x_axis
    (FilterLaserFanByMaxRange norm_on_x_axis two_returns (of_Z 7)) (of_Z 2)
  = LaserFan3D.Build (Vector3f.Build zero zero zero)
      [Vector3f.Build (of_Z 1) zero zero] [] [].
Proof.
  destruct (FilterLaserFanByMaxRange_nested norm_on_x_axis two_returns
              (of_Z 2) (of_Z 7)) as [Hnested _]; [reflexivity|].
  rewrite Hnested. reflexivity.
Defined.

End FilterLaserFanByMaxRange_composition.

(** ** More on fan construction *)

Module ToLaserFan_more.

Import Float32 Float32_facts sensor.

Section Facts.

Variable Rotation2Df : float -> Vector2f.t -> Vector2f.t.
Variables min_range max_range missing_echo_ray_length : float.

#[local] Abbreviation body :=
  (ToLaserFan_body Rotation2Df min_range max_range missing_echo_ray_length).
#[local] Abbreviation loop :=
  (ToLaserFan_loop Rotation2Df min_range max_range missing_echo_ray_length).
#[local] Abbreviation points fan :=
  (length (LaserFan.point_cloud fan)
   + length (LaserFan.missing_echo_point_cloud fan))%nat.

(** Whether construction aborts depends on the angles and on [min_range]
    only. *)
Lemma ToLaserFan_same_checks (proto proto' : LaserScan) :
  angle_min proto' = angle_min proto ->
  angle_max proto' = angle_max proto ->
  angle_increment proto' = angle_increment proto ->
  ToLaserFan Rotation2Df min_range max_range missing_echo_ray_length proto'
  = (fun _ => snd (loop proto' (range proto')))
      <$> ToLaserFan Rotation2Df min_range max_range missing_echo_ray_length
            proto.
Proof.
  intros Hmin Hmax Hinc. unfold ToLaserFan. rewrite Hmin, Hmax, Hinc.
  destruct (negb (ge min_range zero)); [reflexivity|].
  destruct (negb (gt (angle_increment proto) zero)); [reflexivity|].
  destruct (negb (gt (angle_max proto) (angle_min proto))); reflexivity.
Qed.

Lemma ToLaserFan_Some (proto : LaserScan) (fan : LaserFan.t) :
  ToLaserFan Rotation2Df min_range max_range missing_echo_ray_length proto
  = Some fan ->
  fan = snd (loop proto (range proto)).
Proof.
  unfold ToLaserFan.
  destruct (negb (ge min_range zero)); [discriminate|].
  destruct (negb (gt (angle_increment proto) zero)); [discriminate|].
  destruct (negb (gt (angle_max proto) (angle_min proto))); [discriminate|].
  now intros [= <-].
Qed.

(** Echoes after the first do not reach the loop body. *)
Lemma body_take_1 (increment : float) (state : float * LaserFan.t)
    (echoes : list float) :
  body increment state (take 1 echoes) = body increment state echoes.
Proof. destruct state, echoes; reflexivity. Qed.

(** Only the first echo of a beam is used: echoes after the first can be
    dropped from every beam without changing the outcome, the abort
    included. *)
Theorem ToLaserFan_first_echo_only (proto : LaserScan) :
  ToLaserFan Rotation2Df min_range max_range missing_echo_ray_length
    (first_echoes proto)
  = ToLaserFan Rotation2Df min_range max_range missing_echo_ray_length proto.
Proof.
  rewrite (ToLaserFan_same_checks proto (first_echoes proto))
    by reflexivity.
  destruct (ToLaserFan Rotation2Df min_range max_range
              missing_echo_ray_length proto) as [fan|] eqn:Hfan;
    [|reflexivity].
  apply ToLaserFan_Some in Hfan as ->. simpl. do 2 f_equal.
  unfold ToLaserFan_loop. simpl.
  generalize (angle_min proto, LaserFan.Build Vector2f.Zero [] []).
  induction (range proto) as [|echoes beams IH]; intros state;
    [reflexivity|].
  rewrite fmap_cons. simpl. now rewrite body_take_1, IH.
Qed.

(** What one run of the body adds: one point if the echo is accepted, to
    one of the two clouds, and none otherwise. *)
Lemma body_points (increment : float) (state : float * LaserFan.t)
    (echoes : list float) :
  points (snd (body increment state echoes))
  = (points (snd state)
     + if echo_accepted min_range echoes then 1 else 0)%nat.
Proof.
  destruct state as [angle [o returns misses]].
  destruct echoes as [|first_echo echoes]; simpl; [lia|].
  destruct (negb (isnan first_echo) && ge first_echo min_range); simpl;
    [|lia].
  destruct (le first_echo max_range); simpl; rewrite length_app; simpl; lia.
Qed.

Lemma loop_points (proto : LaserScan) (beams : list (list float)) :
  points (snd (loop proto beams))
  = length (filter (fun echoes => echo_accepted min_range echoes = true)
              beams).
Proof.
  induction beams as [|echoes beams IH] using rev_ind; [reflexivity|].
  rewrite ToLaserFan_facts.loop_snoc, body_points, IH, filter_app,
    length_app, filter_cons, filter_nil.
  destruct (echo_accepted min_range echoes).
  - now rewrite decide_True.
  - now rewrite decide_False by discriminate.
Qed.

(** Every beam adds at most one point: the returns and the misses of the
    fan together have one point for each beam whose first echo is a number
    that is at least [min_range], so never more points than the scan has
    beams. *)
Theorem ToLaserFan_one_point_per_accepted_beam (proto : LaserScan)
    (fan : LaserFan.t) :
  ToLaserFan Rotation2Df min_range max_range missing_echo_ray_length proto
  = Some fan ->
  (length (LaserFan.point_cloud fan)
   + length (LaserFan.missing_echo_point_cloud fan)
   = length (filter (fun echoes => echo_accepted min_range echoes = true)
               (range proto)))%nat
  /\ (length (LaserFan.point_cloud fan)
      + length (LaserFan.missing_echo_point_cloud fan)
      <= length (range proto))%nat.
Proof.
  intros Hfan. apply ToLaserFan_Some in Hfan as ->.
  rewrite loop_points. split; [reflexivity|]. apply length_filter.
Qed.

(** The body only appends to the clouds. *)
Lemma body_prefix (increment : float) (state : float * LaserFan.t)
    (echoes : list float) :
  LaserFan.point_cloud (snd state)
    `prefix_of` LaserFan.point_cloud (snd (body increment state echoes))
  /\ LaserFan.missing_echo_point_cloud (snd state)
       `prefix_of` LaserFan.missing_echo_point_cloud
                     (snd (body increment state echoes)).
Proof.
  destruct state as [angle [o returns misses]].
  destruct echoes as [|first_echo echoes]; simpl; [split; reflexivity|].
  destruct (negb (isnan first_echo) && ge first_echo min_range); simpl;
    [|split; reflexivity].
  destruct (le first_echo max_range); simpl; split;
    first [reflexivity | now apply prefix_app_r].
Qed.

Lemma fold_prefix (increment : float) (more : list (list float))
    (state : float * LaserFan.t) :
  LaserFan.point_cloud (snd state)
    `prefix_of` LaserFan.point_cloud
                  (snd (fold_left (body increment) more state))
  /\ LaserFan.missing_echo_point_cloud (snd state)
       `prefix_of` LaserFan.missing_echo_point_cloud
                     (snd (fold_left (body increment) more state)).
Proof.
  revert state. induction more as [|echoes more IH]; intros state; simpl;
    [split; reflexivity|].
  destruct (body_prefix increment state echoes) as [Hr Hm].
  destruct (IH (body increment state echoes)) as [Hr' Hm'].
  split; etransitivity; eassumption.
Qed.

(** A scan that continues another, with the same angles, gives a fan that
    continues its fan: construction succeeds on it as well, and the returns
    and the misses of the shorter scan are the first returns and the first
    misses of the longer one. *)
Theorem ToLaserFan_continued (proto : LaserScan) (more : list (list float))
    (fan : LaserFan.t) :
  ToLaserFan Rotation2Df min_range max_range missing_echo_ray_length proto
  = Some fan ->
  exists longer : LaserFan.t,
    ToLaserFan Rotation2Df min_range max_range missing_echo_ray_length
      (continued proto more) = Some longer
    /\ LaserFan.point_cloud fan `prefix_of` LaserFan.point_cloud longer
    /\ LaserFan.missing_echo_point_cloud fan
         `prefix_of` LaserFan.missing_echo_point_cloud longer.
Proof.
  intros Hfan.
  rewrite (ToLaserFan_same_checks proto (continued proto more))
    by reflexivity.
  rewrite Hfan. simpl. eexists. split; [reflexivity|].
  apply ToLaserFan_Some in Hfan as ->.
  unfold ToLaserFan_loop. simpl. rewrite fold_left_app.
  apply fold_prefix.
Qed.

(** When [min_range <= max_range] does not hold, no echo passes both tests
    of the loop body. *)
Lemma body_no_return (increment : float) (state : float * LaserFan.t)
    (echoes : list float) :
  le min_range max_range = false ->
  LaserFan.point_cloud (snd (body increment state echoes))
  = LaserFan.point_cloud (snd state).
Proof.
  intros Hempty. destruct state as [angle [o returns misses]].
  destruct echoes as [|first_echo echoes]; simpl; [reflexivity|].
  destruct (negb (isnan first_echo) && ge first_echo min_range) eqn:Hguard;
    simpl; [|reflexivity].
  destruct (le first_echo max_range) eqn:Hle; simpl; [|reflexivity].
  apply andb_prop in Hguard as [_ Hge]. unfold ge in Hge.
  pose proof (Float32_order_facts.le_trans _ _ _ Hge Hle) as Hle'.
  unfold le in *. congruence.
Qed.

(** When [min_range <= max_range] does not hold, because [max_range] is
    below [min_range] or is NaN, the fan has no returns: every accepted echo
    becomes a missing echo. *)
Theorem ToLaserFan_no_returns (proto : LaserScan) (fan : LaserFan.t) :
  ToLaserFan Rotation2Df min_range max_range missing_echo_ray_length proto
  = Some fan ->
  le min_range max_range = false ->
  LaserFan.point_cloud fan = []
  /\ length (LaserFan.missing_echo_point_cloud fan)
     = length (filter (fun echoes => echo_accepted min_range echoes = true)
                 (range proto)).
Proof.
  intros Hfan Hempty.
  assert (Hreturns : LaserFan.point_cloud fan = []).
  { apply ToLaserFan_Some in Hfan as ->.
    induction (range proto) as [|echoes beams IH] using rev_ind;
      [reflexivity|].
    now rewrite ToLaserFan_facts.loop_snoc, body_no_return. }
  split; [assumption|].
  apply ToLaserFan_Some in Hfan. subst fan.
  pose proof (loop_points proto (range proto)) as Hcount.
  now rewrite Hreturns in Hcount.
Qed.

End Facts.

Import examples.

(** The hypothesis of [ToLaserFan_one_point_per_accepted_beam] holds of the
    scan [four_beams]: of its four beams, one is accepted. *)
Lemma ToLaserFan_one_point_per_accepted_beam_witness :
  ToLaserFan Rotation2Df_zero zero (of_Z 5) (of_Z 9) four_beams
  = Some (LaserFan.Build Vector2f.Zero [Vector2f.Build (of_Z 2) zero] [])
  /\ (length (filter (fun echoes => echo_accepted zero echoes = true)
                (range four_beams)) = 1)%nat.
Proof.
  split; [reflexivity|].
  destruct (ToLaserFan_one_point_per_accepted_beam Rotation2Df_zero zero
              (of_Z 5) (of_Z 9) four_beams
              (LaserFan.Build Vector2f.Zero [Vector2f.Build (of_Z 2) zero] [])
              eq_refl) as [Hcount _].
  symmetry. exact Hcount.
Defined.

(** The hypothesis of [ToLaserFan_continued] holds of the scan [one_beam],
    here continued by a beam without echoes. *)
Lemma ToLaserFan_continued_witness :
  exists longer : LaserFan.t,
    ToLaserFan Rotation2Df_zero zero (of_Z 5) (of_Z 9)
      (continued one_beam [[]]) = Some longer
    /\ [Vector2f.Build (of_Z 1) zero] `prefix_of` LaserFan.point_cloud longer.
Proof.
  destruct (ToLaserFan_continued Rotation2Df_zero zero (of_Z 5) (of_Z 9)
              one_beam [[]]
              (LaserFan.Build Vector2f.Zero [Vector2f.Build (of_Z 1) zero] [])
              eq_refl) as (longer & Hlonger & Hreturns & _).
  exists longer. split; assumption.
Defined.

(** The hypotheses of [ToLaserFan_no_returns] hold of the scan [one_beam]
    with [min_range = 0] and [max_range = -1]: its echo is a missing echo. *)
Lemma ToLaserFan_no_returns_witness :
  ToLaserFan Rotation2Df_zero zero (of_Z (-1)) (of_Z 9) one_beam
  = Some (LaserFan.Build Vector2f.Zero [] [Vector2f.Build (of_Z 9) zero])
  /\ le zero (of_Z (-1)) = false
  /\ (length (filter (fun echoes => echo_accepted zero echoes = true)
                (range one_beam)) = 1)%nat.
Proof.
  split; [reflexivity|]. split; [reflexivity|].
  destruct (ToLaserFan_no_returns Rotation2Df_zero zero (of_Z (-1)) (of_Z 9)
              one_beam
              (LaserFan.Build Vector2f.Zero [] [Vector2f.Build (of_Z 9) zero])
              eq_refl eq_refl) as [_ Hcount].
  symmetry. exact Hcount.
Defined.

End ToLaserFan_more.

(** ** More on reordering and compression *)

Module Compress_more.

Import Float32 sensor ReorderReflectivities_facts.

(** Arithmetic on lengths, whether a list is one of [uint8] or of [Z]. *)
#[local] Ltac length_lia := unfold uint8 in *; lia.

(** An entry of the result of [ReorderReflectivities] that exists is an
    entry of the reflectivities, at the index that [new_to_old] gives. *)
Lemma reordered_lookup (reflectivities : list uint8) (new_to_old : list Z)
    (res : list uint8) (i : nat) (x : uint8) :
  ReorderReflectivities reflectivities new_to_old = Some res ->
  res !! i = Some x ->
  exists j : Z, new_to_old !! i = Some j
                /\ 0 <= j < Z.of_nat (length reflectivities)
                /\ reflectivities !! Z.to_nat j = Some x.
Proof.
  intros Hres Hx.
  destruct (ReorderReflectivities_Some _ _ _ Hres) as [Hlen Hread].
  destruct (Hread i) as (j & Hj & Hrj).
  { apply lookup_lt_Some in Hx. length_lia. }
  exists j. split; [assumption|].
  rewrite Hx in Hrj. symmetry in Hrj.
  split; [apply vector_at_is_Some; eauto|].
  unfold vector_at in Hrj. now destruct (j <? 0).
Qed.

(** Reordering twice is reordering once, by the composed order. *)
Theorem ReorderReflectivities_compose (reflectivities : list uint8)
    (first second : list Z) (once twice : list uint8) :
  ReorderReflectivities reflectivities first = Some once ->
  ReorderReflectivities once second = Some twice ->
  ReorderReflectivities reflectivities (compose_order first second)
  = Some twice.
Proof.
  intros Honce Htwice.
  destruct (ReorderReflectivities_Some _ _ _ Honce) as [Hlen1 _].
  destruct (ReorderReflectivities_Some _ _ _ Htwice) as [Hlen2 Hread2].
  pose proof (proj1 (ReorderReflectivities_is_Some _ _)
                (mk_is_Some _ _ Htwice)) as [Hle2 Hidx2].
  unfold uint8 in *.
  (* entry i of the composed order *)
  assert (Hentry : forall i : nat,
             (i < length reflectivities)%nat ->
             exists j k : Z,
               second !! i = Some j
               /\ compose_order first second !! i = Some k
               /\ 0 <= k < Z.of_nat (length reflectivities)
               /\ twice !! i = reflectivities !! Z.to_nat k).
  { intros i Hi.
    destruct (Hread2 i) as (j & Hj & Htj); [length_lia|].
    destruct (lookup_lt_is_Some_2 twice i) as [x Hx]; [length_lia|].
    rewrite Hx in Htj. symmetry in Htj.
    assert (Honce_j : once !! Z.to_nat j = Some x).
    { unfold vector_at in Htj. now destruct (j <? 0). }
    destruct (reordered_lookup _ _ _ _ _ Honce Honce_j)
      as (k & Hk & Hrange & Hrk).
    exists j, k. split; [assumption|].
    assert (Hj0 : 0 <= j) by (apply (Hidx2 i j); [lia | assumption]).
    split; [|split; [assumption | rewrite Hx; symmetry; exact Hrk]].
    unfold compose_order. rewrite list_lookup_fmap, Hj. simpl.
    unfold vector_at. destruct (Z.ltb_spec j 0); [length_lia|].
    now rewrite Hk. }
  assert (Hsome : is_Some (ReorderReflectivities reflectivities
                             (compose_order first second))).
  { apply ReorderReflectivities_is_Some. split.
    - unfold compose_order. rewrite length_fmap. unfold uint8 in *. length_lia.
    - intros i k Hi Hk.
      destruct (Hentry i Hi) as (j & k' & _ & Hk' & Hrange & _).
      rewrite Hk in Hk'. now injection Hk' as <-. }
  destruct Hsome as [res Hres]. rewrite Hres. f_equal.
  destruct (ReorderReflectivities_Some _ _ _ Hres) as [Hlen3 Hread3].
  apply list_eq. intros i. unfold uint8 in *.
  destruct (decide (i < length reflectivities)%nat) as [Hi|Hi].
  - destruct (Hentry i Hi) as (j & k & _ & Hk & Hrange & ->).
    destruct (Hread3 i Hi) as (k' & Hk' & ->).
    rewrite Hk in Hk'. injection Hk' as <-.
    unfold vector_at. now destruct (Z.ltb_spec k 0); [length_lia|].
  - rewrite !lookup_ge_None_2 by length_lia. reflexivity.
Qed.

(** Reordering by an order and then by its inverse gives the
    reflectivities back, in their original order. *)
Theorem ReorderReflectivities_inverse (reflectivities : list uint8)
    (new_to_old old_to_new : list Z) (reordered : list uint8) :
  length new_to_old = length reflectivities ->
  (forall i : nat,
     (i < length reflectivities)%nat ->
     exists j : Z, old_to_new !! i = Some j
                   /\ vector_at new_to_old j = Some (Z.of_nat i)) ->
  ReorderReflectivities reflectivities new_to_old = Some reordered ->
  ReorderReflectivities reordered old_to_new = Some reflectivities.
Proof.
  intros Hsize Hinverse Hreordered.
  destruct (ReorderReflectivities_Some _ _ _ Hreordered) as [Hlen Hread].
  unfold uint8 in *.
  assert (Hsome : is_Some (ReorderReflectivities reordered old_to_new)).
  { apply ReorderReflectivities_is_Some. split.
    - destruct (length reordered) as [|n] eqn:Hn; [length_lia|].
      destruct (Hinverse n) as (j & Hj & _); [length_lia|].
      apply lookup_lt_Some in Hj. length_lia.
    - intros i j Hi Hj.
      destruct (Hinverse i) as (j' & Hj' & Hback); [length_lia|].
      rewrite Hj in Hj'. injection Hj' as <-.
      apply mk_is_Some, vector_at_is_Some in Hback. length_lia. }
  destruct Hsome as [res Hres]. rewrite Hres. f_equal.
  destruct (ReorderReflectivities_Some _ _ _ Hres) as [Hlen' Hread'].
  apply list_eq. intros i. unfold uint8 in *.
  destruct (decide (i < length reflectivities)%nat) as [Hi|Hi].
  - destruct (Hread' i) as (j & Hj & ->); [length_lia|].
    destruct (Hinverse i Hi) as (j' & Hj' & Hback).
    rewrite Hj in Hj'. injection Hj' as <-.
    pose proof (proj1 (vector_at_is_Some _ _) (mk_is_Some _ _ Hback))
      as Hrange.
    destruct (Hread (Z.to_nat j)) as (k & Hk & Hrk); [length_lia|].
    assert (Hk' : k = Z.of_nat i).
    { unfold vector_at in Hback. destruct (j <? 0); congruence. }
    subst k. rewrite vector_at_of_nat in Hrk.
    unfold vector_at. destruct (Z.ltb_spec j 0); [length_lia|]. exact Hrk.
  - rewrite !lookup_ge_None_2 by length_lia. reflexivity.
Qed.

Section Facts.

Context `{CompressedPointCloudOps}.

(** Whatever the encoding of the point clouds is: a fan that [Compress]
    accepts comes back from [Decompress] with its origin, with as many
    reflectivities as it had, and with no reflectivity value that it did not
    have. *)
Theorem Compress_invents_no_reflectivity (laser_fan : LaserFan3D.t)
    (compressed : CompressedLaserFan3D.t) :
  Compress laser_fan = Some compressed ->
  LaserFan3D.origin (Decompress compressed) = LaserFan3D.origin laser_fan
  /\ length (LaserFan3D.reflectivities (Decompress compressed))
     = length (LaserFan3D.reflectivities laser_fan)
  /\ (forall x : uint8,
        x ∈ LaserFan3D.reflectivities (Decompress compressed) ->
        x ∈ LaserFan3D.reflectivities laser_fan).
Proof.
  unfold Compress.
  destruct (CompressAndReturnOrder (LaserFan3D.returns laser_fan))
    as [cells new_to_old].
  destruct (ReorderReflectivities (LaserFan3D.reflectivities laser_fan)
              new_to_old) as [reordered|] eqn:Hreordered; [|discriminate].
  simpl. intros [= <-]. simpl.
  split; [reflexivity|]. split.
  - now apply ReorderReflectivities_Some in Hreordered as [Hlen _].
  - intros x (i & Hx)%list_elem_of_lookup_1.
    destruct (reordered_lookup _ _ _ _ _ Hreordered Hx) as (j & _ & _ & Hj).
    now apply list_elem_of_lookup_2 in Hj.
Qed.

(** A fan without reflectivities is compressed whatever order the encoding
    records. *)
Lemma Compress_without_reflectivities (laser_fan : LaserFan3D.t) :
  LaserFan3D.reflectivities laser_fan = [] ->
  exists compressed : CompressedLaserFan3D.t,
    Compress laser_fan = Some compressed
    /\ CompressedLaserFan3D.origin compressed = LaserFan3D.origin laser_fan
    /\ CompressedLaserFan3D.reflectivities compressed = [].
Proof.
  intros Hnone. unfold Compress. rewrite Hnone.
  destruct (CompressAndReturnOrder (LaserFan3D.returns laser_fan))
    as [cells new_to_old].
  eexists. split; [reflexivity|]. split; reflexivity.
Qed.

(** Filtering makes every fan compressible: [Compress] accepts the result of
    [FilterLaserFanByMaxRange] for every fan, also for one that it rejects
    itself, and [Decompress] then gives a fan with the origin of the input
    and without reflectivities. *)
Theorem Compress_FilterLaserFanByMaxRange (norm : Vector3f.t -> float)
    (laser_fan : LaserFan3D.t) (max_range : float) :
  exists compressed : CompressedLaserFan3D.t,
    Compress (FilterLaserFanByMaxRange norm laser_fan max_range)
    = Some compressed
    /\ LaserFan3D.origin (Decompress compressed)
       = LaserFan3D.origin laser_fan
    /\ LaserFan3D.reflectivities (Decompress compressed) = [].
Proof.
  destruct (Compress_without_reflectivities
              (FilterLaserFanByMaxRange norm laser_fan max_range))
    as (compressed & Hcompressed & Horigin & Hnone).
  { now rewrite
      FilterLaserFanByMaxRange_facts.FilterLaserFanByMaxRange_filter. }
  exists compressed. split; [assumption|]. simpl.
  rewrite Horigin, Hnone.
  now rewrite FilterLaserFanByMaxRange_facts.FilterLaserFanByMaxRange_filter.
Qed.

(** A 2D fan lifted to 3D has no reflectivities, so [Compress] accepts it;
    its origin lies in the plane, and projecting the 3D fan gives the origin
    of the 2D fan back, whatever the crop box is. *)
Theorem ToLaserFan3D_compressible
    (ToPointCloud : list Vector2f.t -> PointCloud)
    (Crop : PointCloud -> Vector3f.t -> Vector3f.t -> PointCloud)
    (ProjectToPointCloud2D : PointCloud -> list Vector2f.t)
    (laser_fan : LaserFan.t) (min max : Vector3f.t) :
  (exists compressed : CompressedLaserFan3D.t,
     Compress (ToLaserFan3D ToPointCloud laser_fan) = Some compressed
     /\ LaserFan3D.reflectivities (Decompress compressed) = [])
  /\ Vector3f.z (LaserFan3D.origin (ToLaserFan3D ToPointCloud laser_fan))
     = zero
  /\ LaserFan.origin
       (ProjectCroppedLaserFan Crop ProjectToPointCloud2D
          (ToLaserFan3D ToPointCloud laser_fan) min max)
     = LaserFan.origin laser_fan.
Proof.
  split; [|split; [reflexivity|]].
  - destruct (Compress_without_reflectivities
                (ToLaserFan3D ToPointCloud laser_fan) eq_refl)
      as (compressed & Hcompressed & _ & Hnone).
    exists compressed. split; assumption.
  - simpl. now destruct (LaserFan.origin laser_fan).
Qed.

End Facts.

Import grid examples.

(** The hypotheses of [ReorderReflectivities_compose] hold of two orders of
    three reflectivities. *)
Lemma ReorderReflectivities_compose_witness :
  compose_order [2; 0; 1] [1; 0; 2] = [0; 2; 1]
  /\ ReorderReflectivities [10; 20; 30] [0; 2; 1] = Some [10; 30; 20].
Proof.
  split; [reflexivity|].
  apply (ReorderReflectivities_compose [10; 20; 30] [2; 0; 1] [1; 0; 2]
           [30; 10; 20] [10; 30; 20] eq_refl eq_refl).
Defined.

(** The hypotheses of [ReorderReflectivities_inverse] hold of the order
    [2; 0; 1], whose inverse is [1; 2; 0]. *)
Lemma ReorderReflectivities_inverse_witness :
  ReorderReflectivities [10; 20; 30] [2; 0; 1] = Some [30; 10; 20]
  /\ ReorderReflectivities [30; 10; 20] [1; 2; 0] = Some [10; 20; 30].
Proof.
  split; [reflexivity|].
  apply (ReorderReflectivities_inverse [10; 20; 30] [2; 0; 1] [1; 2; 0]);
    [reflexivity| |reflexivity].
  intros [|[|[|i]]] Hi; simpl in Hi; [eexists; split; reflexivity ..|length_lia].
Defined.

(** The hypothesis of [Compress_invents_no_reflectivity] holds of the fan
    [two_returns] under the grid encoding. *)
Lemma Compress_invents_no_reflectivity_witness :
  LaserFan3D.origin
    (Decompress (@CompressedLaserFan3D.Build grid.codec
                   (Vector3f.Build zero zero zero)
                   [(1, 0, 0); (5, 0, 0)] [] [20; 10]))
  = LaserFan3D.origin two_returns.
Proof.
  apply (@Compress_invents_no_reflectivity grid.codec two_returns). reflexivity.
Defined.

End Compress_more.

(** ** Fans as protocol buffer messages *)

Module Proto_facts.

Import Float32 sensor.

Section Facts.

Variables Vector3f_proto PointCloud_proto : Type.
Variable transform_ToProto : Vector3f.t -> Vector3f_proto.
Variable transform_ToEigen : Vector3f_proto -> Vector3f.t.
Variable PointCloud_ToProto : PointCloud -> PointCloud_proto.
Variable PointCloud_FromProto : PointCloud_proto -> PointCloud.

(** A reflectivity that is a [uint8] survives the two conversions. *)
Lemma uint8_of_int_of_uint8 (reflectivities : list uint8) :
  Forall (fun r => 0 <= r < 256) reflectivities ->
  uint8_of_int <$> (int_of_uint8 <$> reflectivities) = reflectivities.
Proof.
  intros Hbytes. rewrite <- list_fmap_compose.
  rewrite <- (list_fmap_id reflectivities) at 2.
  apply Forall_fmap_ext. eapply Forall_impl; [exact Hbytes|].
  intros r Hr. simpl. unfold uint8_of_int, int_of_uint8.
  now apply Z.mod_small.
Qed.

(** Writing a fan to a message and reading the message gives the fan back,
    provided that the messages of its origin and of its two point clouds
    are read back as they were written and that its reflectivities are
    [uint8] values: the returns stay the returns, the misses the misses, and
    the reflectivities keep their values and their order. *)
Theorem FromProto_ToProto (laser_fan : LaserFan3D.t) :
  transform_ToEigen (transform_ToProto (LaserFan3D.origin laser_fan))
  = LaserFan3D.origin laser_fan ->
  PointCloud_FromProto (PointCloud_ToProto (LaserFan3D.returns laser_fan))
  = LaserFan3D.returns laser_fan ->
  PointCloud_FromProto (PointCloud_ToProto (LaserFan3D.misses laser_fan))
  = LaserFan3D.misses laser_fan ->
  Forall (fun r => 0 <= r < 256) (LaserFan3D.reflectivities laser_fan) ->
  FromProto Vector3f_proto PointCloud_proto transform_ToEigen
    PointCloud_FromProto
    (ToProto Vector3f_proto PointCloud_proto transform_ToProto
       PointCloud_ToProto laser_fan)
  = laser_fan.
Proof.
  intros Horigin Hreturns Hmisses Hbytes.
  destruct laser_fan as [origin returns misses reflectivities].
  unfold FromProto, ToProto. simpl in *.
  now rewrite Horigin, Hreturns, Hmisses, uint8_of_int_of_uint8.
Qed.

(** Reading a message and writing the fan again keeps the reflectivities in
    their order, each reduced modulo 256; so a message is written back as
    it was read only if its reflectivities are below 256 and not
    negative. *)
Theorem ToProto_FromProto_reflectivity
    (proto : LaserFan3D_proto.t Vector3f_proto PointCloud_proto) :
  LaserFan3D_proto.reflectivity
    (ToProto Vector3f_proto PointCloud_proto transform_ToProto
       PointCloud_ToProto
       (FromProto Vector3f_proto PointCloud_proto transform_ToEigen
          PointCloud_FromProto proto))
  = (fun n => n mod 256) <$> LaserFan3D_proto.reflectivity proto
  /\ (ToProto Vector3f_proto PointCloud_proto transform_ToProto
        PointCloud_ToProto
        (FromProto Vector3f_proto PointCloud_proto transform_ToEigen
           PointCloud_FromProto proto)
      = proto ->
      Forall (fun n => 0 <= n < 256) (LaserFan3D_proto.reflectivity proto)).
Proof.
  assert (Hmod : LaserFan3D_proto.reflectivity
                   (ToProto Vector3f_proto PointCloud_proto transform_ToProto
                      PointCloud_ToProto
                      (FromProto Vector3f_proto PointCloud_proto
                         transform_ToEigen PointCloud_FromProto proto))
                 = (fun n => n mod 256)
                     <$> LaserFan3D_proto.reflectivity proto).
  { unfold ToProto, FromProto. simpl.
    now rewrite <- list_fmap_compose. }
  split; [exact Hmod|].
  intros Hsame. rewrite Hsame in Hmod.
  rewrite Hmod at 1. apply Forall_fmap, Forall_forall.
  intros n _. simpl. apply Z.mod_pos_bound. lia.
Qed.

End Facts.

Import examples.

(** The hypotheses of [FromProto_ToProto] hold of the fan [two_returns]
    when a message holds the vectors themselves. *)
Lemma FromProto_ToProto_witness :
  FromProto Vector3f.t PointCloud id id
    (ToProto Vector3f.t PointCloud id id two_returns)
  = two_returns.
Proof.
  apply (FromProto_ToProto Vector3f.t PointCloud id id id id two_returns);
    try reflexivity.
  simpl. repeat (apply Forall_cons; split; [lia|]). apply Forall_nil_2.
Defined.

End Proto_facts.
